(** * external-mdns: resource-to-record translation

    A shallow embedding of the Go sources
      - [source/records.go]  ([buildARecord], [buildSRVRecord]),
      - [source/ingress.go]  ([IngressSource]),
      - [source/service.go]  ([ServiceSource], annotation driven; the watcher
        that [main.go] constructs),
      - the second [ServiceSource] of the sources, the one configured by a
        namespace and an internal-publication switch,
      - the dispatch loop of [main.go],
    followed by the properties of the specification that were checked
    against them. *)

From Stdlib Require Import ZArith NArith String Ascii List Lia.
From Stdlib Require Import DecimalString HexadecimalString.
From Stdlib Require Import DecimalPos DecimalN.
From stdpp Require Import base option list strings gmap.

(* ================================================================== *)
(** ** The parts of the Go runtime and standard library that are used *)
(* ================================================================== *)

Module strings.

(** [strings.HasSuffix(s, suffix)]:
    [len(s) >= len(suffix) && s[len(s)-len(suffix):] == suffix]. *)
Definition HasSuffix (s suffix : string) : bool :=
  (String.length suffix <=? String.length s)%nat
  && String.eqb
       (substring (String.length s - String.length suffix)
                  (String.length suffix) s)
       suffix.

End strings.

Module fmt.

(** The verb [%d] applied to an unsigned byte. *)
Definition d (n : N) : string :=
  DecimalString.NilZero.string_of_uint (N.to_uint n).

(** The verb [%x] applied to an unsigned byte: lowercase, no padding. *)
Definition x (n : N) : string :=
  HexadecimalString.NilZero.string_of_uint (N.to_hex_uint n).

End fmt.

Module net.

(** [net.IP] is a byte slice; [nil] is the empty list. *)
Definition IP : Type := list N.

Definition IPv4len : nat := 4.
Definition IPv6len : nat := 16.

(** [net.IPv4(a, b, c, d)]: the 16-byte form of an IPv4 address. *)
Definition IPv4 (a b c d : N) : IP :=
  [0; 0; 0; 0; 0; 0; 0; 0; 0; 0; 255; 255; a; b; c; d]%N.

Definition isZeros (p : list N) : bool := forallb (N.eqb 0) p.

(** [ip.To4()]: a 4-byte slice is returned as it is, a 16-byte slice
    with the prefix [0..0 ff ff] gives its last four bytes, anything
    else gives [nil]. *)
Definition To4 (ip : IP) : IP :=
  if (length ip =? IPv4len)%nat then ip
  else if (length ip =? IPv6len)%nat
          && isZeros (take 10 ip)
          && N.eqb (nth 10 ip 0%N) 255
          && N.eqb (nth 11 ip 0%N) 255
       then drop 12 ip
       else [].

(** [ip.To16()]. *)
Definition To16 (ip : IP) : IP :=
  if (length ip =? IPv4len)%nat
  then IPv4 (nth 0 ip 0%N) (nth 1 ip 0%N) (nth 2 ip 0%N) (nth 3 ip 0%N)
  else if (length ip =? IPv6len)%nat then ip
       else [].

End net.

(** Library functions whose results the translation consumes without
    looking inside them.  [net_ParseIP] answers [None] for Go's [nil];
    [json_Unmarshal] is [json.Unmarshal] into a
    [map[string]map[string]string], answering [None] when Go returns an
    error. *)
Class GoLib := {
  net_ParseIP : string -> option net.IP;
  strings_ToLower : string -> string;
  json_Unmarshal : string -> option (gmap string (gmap string string));
}.

(** Go leaves the order in which [range] visits a map unspecified and
    varies it from one loop to the next.  A [MapRange] fixes the order
    for one run of a function: any enumeration of the entries may be
    chosen, for the outer map and, separately for each of its keys, for
    the inner map. *)
Record MapRange := {
  range_outer :
    gmap string (gmap string string) -> list (string * gmap string string);
  range_outer_perm : forall m, range_outer m ≡ₚ map_to_list m;
  range_inner : string -> gmap string string -> list (string * string);
  range_inner_perm : forall svc m, range_inner svc m ≡ₚ map_to_list m;
}.

(* ================================================================== *)
(** ** github.com/miekg/dns: the record types that are built          *)
(* ================================================================== *)

Module dns.

Definition TypeA : Z := 1.
Definition TypePTR : Z := 12.
Definition TypeTXT : Z := 16.
Definition TypeAAAA : Z := 28.
Definition TypeSRV : Z := 33.
Definition ClassINET : Z := 1.

Record RR_Header := {
  Name : string;
  Rrtype : Z;
  Class : Z;
  Ttl : Z;
}.

(** A header literal that names only [Name] and [Rrtype]; the other
    fields keep Go's zero value. *)
Definition hdr (name : string) (rrtype : Z) : RR_Header :=
  {| Name := name; Rrtype := rrtype; Class := 0; Ttl := 0 |}.

Inductive RR :=
| A (Hdr : RR_Header) (A : net.IP)
| AAAA (Hdr : RR_Header) (AAAA : net.IP)
| PTR (Hdr : RR_Header) (Ptr : string)
| SRV (Hdr : RR_Header) (Priority Weight Port : Z) (Target : string)
| TXT (Hdr : RR_Header) (Txt : list string).

Definition Header (r : RR) : RR_Header :=
  match r with
  | A h _ | AAAA h _ | PTR h _ | SRV h _ _ _ _ | TXT h _ => h
  end.

Definition withHeader (f : RR_Header -> RR_Header) (r : RR) : RR :=
  match r with
  | A h a => A (f h) a
  | AAAA h a => AAAA (f h) a
  | PTR h p => PTR (f h) p
  | SRV h pr w po t => SRV (f h) pr w po t
  | TXT h t => TXT (f h) t
  end.

Definition isAddress (r : RR) : bool :=
  match r with A _ _ | AAAA _ _ => true | _ => false end.

End dns.

(* ================================================================== *)
(** ** source/records.go                                               *)
(* ================================================================== *)

Module records.

(** The IPv4 branch's [Fprintf] on the four bytes of [addr]. *)
Definition reverseIPv4 (addr : net.IP) : string :=
  fmt.d (nth 3 addr 0%N) +:+ "." +:+ fmt.d (nth 2 addr 0%N) +:+ "."
  +:+ fmt.d (nth 1 addr 0%N) +:+ "." +:+ fmt.d (nth 0 addr 0%N)
  +:+ ".in-addr.arpa.".

(** One turn of the IPv6 loop: [b := addr[len(addr)-1-i]] and the
    [Fprintf] of its two nibbles onto the builder. *)
Definition nibbleStep (addr : net.IP) (reverseIP : string) (i : nat)
  : string :=
  let b := nth (length addr - 1 - i) addr 0%N in
  reverseIP +:+ fmt.x (N.land b 15) +:+ "."
            +:+ fmt.x (N.shiftr (N.land b 240) 4) +:+ ".".

Definition reverseIPv6 (addr : net.IP) : string :=
  fold_left (nibbleStep addr) (seq 0 (length addr)) "" +:+ "ip6.arpa.".

Definition buildARecord (name : string) (addr : net.IP) (addReverse : bool)
  : list dns.RR :=
  let '(forward, reverse) :=
    if (length (net.To4 addr) =? net.IPv4len)%nat then
      let addr := net.To4 addr in
      (dns.A (dns.hdr name dns.TypeA) addr,
       dns.PTR (dns.hdr (reverseIPv4 addr) dns.TypePTR) name)
    else
      let addr := net.To16 addr in
      (dns.AAAA (dns.hdr name dns.TypeAAAA) addr,
       dns.PTR (dns.hdr (reverseIPv6 addr) dns.TypePTR) name)
  in
  if addReverse then [forward; reverse] else [forward].

(** [corev1.Protocol] is a string type. *)
Definition ProtocolTCP : string := "TCP".
Definition ProtocolUDP : string := "UDP".

(** The [switch protocol]: [None] is its [default] branch. *)
Definition protoOf (protocol : string) : option string :=
  if String.eqb protocol ProtocolTCP then Some "tcp"
  else if String.eqb protocol ProtocolUDP then Some "udp"
  else None.

Section with_lib.
Context `{!GoLib}.

Definition dnsserviceOf (servicename proto : string) : string :=
  "_" +:+ strings_ToLower servicename +:+ "._" +:+ proto +:+ ".local.".

Definition dnsinstanceOf (instancename dnsservice : string) : string :=
  instancename +:+ "." +:+ dnsservice.

Definition buildSRVRecord (instancename servicename protocol hostname
                           : string) (port : Z) (txt : list string)
  : list dns.RR :=
  if String.eqb instancename "" || String.eqb servicename ""
     || String.eqb hostname "" || (port =? 0)%Z
  then []
  else
    let txt := if (length txt =? 0)%nat then [""] else txt in
    match protoOf protocol with
    | None => []
    | Some proto =>
        let dnsservice := dnsserviceOf servicename proto in
        let dnsinstance := dnsinstanceOf instancename dnsservice in
        [ dns.PTR (dns.hdr dnsservice dns.TypePTR) dnsinstance;
          dns.SRV (dns.hdr dnsinstance dns.TypeSRV) 0 0 port hostname;
          dns.TXT (dns.hdr dnsinstance dns.TypeTXT) txt ]
    end.
End with_lib.

End records.

(* ================================================================== *)
(** ** The Kubernetes objects, as far as the watchers read them       *)
(* ================================================================== *)

Module corev1.

Record LoadBalancerIngress := { IP : string }.

Record ServicePort := {
  PortName : string;       (* ServicePort.Name *)
  Protocol : string;
  Port : Z;                (* int32 *)
}.

Record Service := {
  Name : string;
  Namespace : string;
  Annotations : gmap string string;
  Spec_Type : string;
  Spec_ClusterIP : string;
  Spec_Ports : list ServicePort;
  Status_LoadBalancer_Ingress : list LoadBalancerIngress;
}.

End corev1.

Module v1.

Record IngressRule := { Host : string }.

Record Ingress := {
  Namespace : string;
  Spec_Rules : list IngressRule;
  Status_LoadBalancer_Ingress : list corev1.LoadBalancerIngress;
}.

End v1.

(** What an informer callback may be handed as [obj interface{}]. *)
Inductive Object :=
| ServiceObj (service : corev1.Service)
| IngressObj (ingress : v1.Ingress)
| OtherObj.

(** The [return] statement through which a run of [buildRecords] left
    the function, in the order in which the statements occur in
    [source/ingress.go]; the service watchers have them in a different
    order and not all of them. *)
Inductive Return :=
| ReturnWrongType      (* the type assertion on [obj] failed *)
| ReturnNoAddress      (* [ip == nil] *)
| ReturnNamespace      (* outside the configured namespace *)
| ReturnNotPublished   (* no annotation and no publish-all *)
| ReturnRecords.       (* the end of the function *)

(* ================================================================== *)
(** ** resource.Resource and the channel to the dispatcher            *)
(* ================================================================== *)

Module resource.

(** The two actions that the sources use. *)
Inductive action := Added | Deleted.

Record Resource := {
  SourceType : string;
  Action : action;
  Records : list dns.RR;
}.

(** [notifyChan]: the values sent so far, oldest first.  The channel is
    unbuffered, so this is also the order in which its single receiver
    takes them. *)
Definition Chan : Type := list Resource.

Definition send (r : Resource) (ch : Chan) : Chan := ch ++ [r].

End resource.

Section sources.
Context `{!GoLib}.

(** The loop shared by all watchers:
    [for _, lb := range ...Ingress { if lb.IP != "" { ip = net.ParseIP(lb.IP) } }],
    started from [ip == nil]. *)
Definition lbStep (ip : option net.IP) (lb : corev1.LoadBalancerIngress)
  : option net.IP :=
  if negb (String.eqb (corev1.IP lb) "") then net_ParseIP (corev1.IP lb)
  else ip.

Definition loadBalancerIP (ingress : list corev1.LoadBalancerIngress)
  : option net.IP :=
  fold_left lbStep ingress None.

End sources.

(* ================================================================== *)
(** ** source/ingress.go                                               *)
(* ================================================================== *)

Module ingress.

Record IngressSource := { namespace : string }.

Section with_lib.
Context `{!GoLib}.

(** The loop over [ingress.Spec.Rules]. *)
Definition ruleStep (ip : net.IP) (records : list dns.RR)
           (rule : v1.IngressRule) : list dns.RR :=
  if negb (String.eqb (v1.Host rule) "")
     && strings.HasSuffix (v1.Host rule) ".local"
  then records ++ records.buildARecord (v1.Host rule +:+ ".") ip false
  else records.

Definition buildRecordsAt (i : IngressSource) (obj : Object)
  : Return * list dns.RR :=
  let records : list dns.RR := [] in
  match obj with
  | IngressObj ingress =>
      match loadBalancerIP (v1.Status_LoadBalancer_Ingress ingress) with
      | None => (ReturnNoAddress, records)
      | Some ip =>
          if negb (String.eqb (namespace i) "")
             && negb (String.eqb (namespace i) (v1.Namespace ingress))
          then (ReturnNamespace, records)
          else (ReturnRecords,
                fold_left (ruleStep ip) (v1.Spec_Rules ingress) records)
      end
  | _ => (ReturnWrongType, records)
  end.

Definition buildRecords (i : IngressSource) (obj : Object)
  : list dns.RR :=
  snd (buildRecordsAt i obj).

Definition onAdd (i : IngressSource) (obj : Object)
           (notifyChan : resource.Chan) : resource.Chan :=
  resource.send
    {| resource.SourceType := "ingress";
       resource.Action := resource.Added;
       resource.Records := buildRecords i obj |} notifyChan.

Definition onDelete (i : IngressSource) (obj : Object)
           (notifyChan : resource.Chan) : resource.Chan :=
  resource.send
    {| resource.SourceType := "ingress";
       resource.Action := resource.Deleted;
       resource.Records := buildRecords i obj |} notifyChan.

Definition onUpdate (i : IngressSource) (oldObj newObj : Object)
           (notifyChan : resource.Chan) : resource.Chan :=
  onAdd i newObj (onDelete i oldObj notifyChan).

End with_lib.

Definition NewIngressWatcher (namespace : string) : IngressSource :=
  {| namespace := namespace |}.

End ingress.

(* ================================================================== *)
(** ** source/service.go: the annotation-driven ServiceSource          *)
(* ================================================================== *)

Module service.

Record ServiceSource := { publishAll : bool }.

Definition annHostname : string := "external-mdns.blake.github.io/hostname".
Definition annInstance : string :=
  "external-mdns.blake.github.io/service-instance".
Definition annTxt : string := "external-mdns.blake.github.io/service-txt".
Definition annPublish : string := "external-mdns.blake.github.io/publish".

(** [uint16(port.Port)] on an [int32]. *)
Definition uint16 (n : Z) : Z := (n mod 65536)%Z.

(** The two [HasSuffix] steps on [hostname]. *)
Definition normalizeHostname (hostname : string) : string :=
  let hostname :=
    if negb (strings.HasSuffix hostname ".") then hostname +:+ "."
    else hostname in
  if negb (strings.HasSuffix hostname ".local.") then hostname +:+ "local."
  else hostname.

(** [svctxt[svc] = append(svctxt[svc], fmt.Sprintf("%s=%s", k, v))]. *)
Definition txtStep (svc : string) (svctxt : gmap string (list string))
           (kv : string * string) : gmap string (list string) :=
  <[svc := default [] (svctxt !! svc) ++ [kv.1 +:+ "=" +:+ kv.2]]> svctxt.

(** The two nested [range] loops over the decoded annotation. *)
Definition flattenTxt (rng : MapRange)
           (txtmap : gmap string (gmap string string))
  : gmap string (list string) :=
  fold_left
    (fun svctxt '(svc, txt) =>
       fold_left (txtStep svc) (range_inner rng svc txt) svctxt)
    (range_outer rng txtmap) ∅.

Section with_lib.
Context `{!GoLib}.

(** [svctxt] as it stands after the [if txtstr != "" && hasTxt] block. *)
Definition svctxtOf (rng : MapRange) (service : corev1.Service)
  : gmap string (list string) :=
  let svctxt : gmap string (list string) := ∅ in
  let txt := corev1.Annotations service !! annTxt in
  let txtstr := default "" txt in
  let hasTxt := bool_decide (is_Some txt) in
  if negb (String.eqb txtstr "") && hasTxt then
    match json_Unmarshal txtstr with
    | Some txtmap => flattenTxt rng txtmap
    | None => svctxt
    end
  else svctxt.

(** The address selection on [service.Spec.Type]. *)
Definition serviceIP (service : corev1.Service) : option net.IP :=
  if String.eqb (corev1.Spec_Type service) "ClusterIP" then
    net_ParseIP (corev1.Spec_ClusterIP service)
  else if String.eqb (corev1.Spec_Type service) "LoadBalancer" then
    loadBalancerIP (corev1.Status_LoadBalancer_Ingress service)
  else None.

(** The loop over [service.Spec.Ports]. *)
Definition portStep (instancename hostname : string)
           (svctxt : gmap string (list string))
           (records : list dns.RR) (port : corev1.ServicePort)
  : list dns.RR :=
  records ++
  records.buildSRVRecord instancename (corev1.PortName port)
    (corev1.Protocol port) hostname (uint16 (corev1.Port port))
    (default [] (svctxt !! corev1.PortName port)).

Definition buildRecordsAt (rng : MapRange) (s : ServiceSource)
           (obj : Object) : Return * list dns.RR :=
  let records : list dns.RR := [] in
  match obj with
  | ServiceObj service =>
      let annotations := corev1.Annotations service in
      let hasHostname := bool_decide (is_Some (annotations !! annHostname)) in
      let hostname :=
        default (corev1.Name service +:+ "." +:+ corev1.Namespace service
                 +:+ ".local.")
                (annotations !! annHostname) in
      let hasInstancename :=
        bool_decide (is_Some (annotations !! annInstance)) in
      let instancename :=
        default (corev1.Namespace service +:+ "/" +:+ corev1.Name service)
                (annotations !! annInstance) in
      let svctxt := svctxtOf rng service in
      let hasTxt := bool_decide (is_Some (annotations !! annTxt)) in
      let hasPublish := bool_decide (is_Some (annotations !! annPublish)) in
      if negb (publishAll s) && negb hasHostname && negb hasInstancename
         && negb hasTxt && negb hasPublish
      then (ReturnNotPublished, records)
      else
        match serviceIP service with
        | None => (ReturnNoAddress, records)
        | Some ip =>
            let hostname := normalizeHostname hostname in
            let records := records.buildARecord hostname ip true in
            (ReturnRecords,
             fold_left (portStep instancename hostname svctxt)
                       (corev1.Spec_Ports service) records)
        end
  | _ => (ReturnWrongType, records)
  end.

Definition buildRecords (rng : MapRange) (s : ServiceSource)
           (obj : Object) : list dns.RR :=
  snd (buildRecordsAt rng s obj).

Definition onAdd (rng : MapRange) (s : ServiceSource) (obj : Object)
           (notifyChan : resource.Chan) : resource.Chan :=
  resource.send
    {| resource.SourceType := "service";
       resource.Action := resource.Added;
       resource.Records := buildRecords rng s obj |} notifyChan.

Definition onDelete (rng : MapRange) (s : ServiceSource) (obj : Object)
           (notifyChan : resource.Chan) : resource.Chan :=
  resource.send
    {| resource.SourceType := "service";
       resource.Action := resource.Deleted;
       resource.Records := buildRecords rng s obj |} notifyChan.

(** The two calls of [buildRecords] each run their own [range]
    loops, hence the two orders. *)
Definition onUpdate (rngOld rngNew : MapRange) (s : ServiceSource)
           (oldObj newObj : Object) (notifyChan : resource.Chan)
  : resource.Chan :=
  onAdd rngNew s newObj (onDelete rngOld s oldObj notifyChan).

End with_lib.

Definition NewServicesWatcher (publishAll : bool) : ServiceSource :=
  {| publishAll := publishAll |}.

End service.

(* ================================================================== *)
(** ** The ServiceSource with a namespace and an internal switch      *)
(* ================================================================== *)

Module service_ns.

Record ServiceSource := {
  defaultNamespace : string;
  withoutNamespace : bool;
  namespace : string;
  publishInternal : bool;
}.

Section with_lib.
Context `{!GoLib}.

Definition serviceIP (s : ServiceSource) (service : corev1.Service)
  : option net.IP :=
  if String.eqb (corev1.Spec_Type service) "ClusterIP"
     && publishInternal s
  then net_ParseIP (corev1.Spec_ClusterIP service)
  else if String.eqb (corev1.Spec_Type service) "LoadBalancer" then
    loadBalancerIP (corev1.Status_LoadBalancer_Ingress service)
  else None.

Definition buildRecordsAt (s : ServiceSource) (obj : Object)
  : Return * list dns.RR :=
  let records : list dns.RR := [] in
  match obj with
  | ServiceObj service =>
      match serviceIP s service with
      | None => (ReturnNoAddress, records)
      | Some ip =>
          if negb (String.eqb (namespace s) "")
             && negb (String.eqb (namespace s) (corev1.Namespace service))
          then (ReturnNamespace, records)
          else
            let records :=
              records.buildARecord
                (corev1.Name service +:+ "." +:+ corev1.Namespace service
                 +:+ ".local.") ip true in
            (ReturnRecords,
             if String.eqb (corev1.Namespace service) (defaultNamespace s)
                || withoutNamespace s
             then records ++
                  records.buildARecord
                    (corev1.Name service +:+ ".local.") ip false
             else records)
      end
  | _ => (ReturnWrongType, records)
  end.

Definition buildRecords (s : ServiceSource) (obj : Object)
  : list dns.RR :=
  snd (buildRecordsAt s obj).

Definition onAdd (s : ServiceSource) (obj : Object)
           (notifyChan : resource.Chan) : resource.Chan :=
  resource.send
    {| resource.SourceType := "service";
       resource.Action := resource.Added;
       resource.Records := buildRecords s obj |} notifyChan.

Definition onDelete (s : ServiceSource) (obj : Object)
           (notifyChan : resource.Chan) : resource.Chan :=
  resource.send
    {| resource.SourceType := "service";
       resource.Action := resource.Deleted;
       resource.Records := buildRecords s obj |} notifyChan.

Definition onUpdate (s : ServiceSource) (oldObj newObj : Object)
           (notifyChan : resource.Chan) : resource.Chan :=
  onAdd s newObj (onDelete s oldObj notifyChan).

End with_lib.

End service_ns.

(* ================================================================== *)
(** ** main.go: configuration, the two controllers, the dispatch loop *)
(* ================================================================== *)

Module main.

(** The package variables that the flags fill in and the core reads. *)
Record Config := {
  namespace : string;
  publishAll : bool;
  recordTTL : Z;
}.

Definition ingressController (cfg : Config) : ingress.IngressSource :=
  ingress.NewIngressWatcher (namespace cfg).

Definition serviceController (cfg : Config) : service.ServiceSource :=
  service.NewServicesWatcher (publishAll cfg).

(** The calls on the [mdns] package. *)
Inductive Call :=
| Publish (record : dns.RR)
| UnPublish (record : dns.RR).

Definition uint32 (n : Z) : Z := (n mod 4294967296)%Z.

(** [record.Header().Ttl = uint32(recordTTL)] and
    [record.Header().Class = dns.ClassINET]. *)
Definition stamp (cfg : Config) (record : dns.RR) : dns.RR :=
  dns.withHeader
    (fun h => {| dns.Name := dns.Name h; dns.Rrtype := dns.Rrtype h;
                 dns.Class := dns.ClassINET;
                 dns.Ttl := uint32 (recordTTL cfg) |})
    record.

(** The body of [case advertiseResource := <-notifyMdns]. *)
Definition advertise (cfg : Config) (advertiseResource : resource.Resource)
  : list Call :=
  map (fun record =>
         match resource.Action advertiseResource with
         | resource.Added => Publish (stamp cfg record)
         | resource.Deleted => UnPublish (stamp cfg record)
         end)
      (resource.Records advertiseResource).

(** The loop, run over everything that was sent on the channel. *)
Definition dispatch (cfg : Config) (notifyMdns : resource.Chan)
  : list Call :=
  flat_map (advertise cfg) notifyMdns.






                                 (* the watchers run, the loop begins *)



End main.

(* ================================================================== *)
(** ** One library and two iteration orders to run the code with      *)
(* ================================================================== *)

(** The general statements below hold for every [GoLib]; the concrete
    inputs are run with this one.  It reads dotted-decimal IPv4 text the
    way [net.ParseIP] does (four decimal fields of at most three digits,
    no leading zero, at most 255), lowers ASCII letters, and decodes JSON
    objects of objects of strings written without escapes, taking [null]
    the way [json.Unmarshal] does for this target (no effect at the top,
    a nil map in place of an object, the empty string in place of a
    string); on any other text the parser and the decoder answer
    [None]. *)
Module example.

Definition isDigit (c : ascii) : bool :=
  (48 <=? nat_of_ascii c)%nat && (nat_of_ascii c <=? 57)%nat.

Fixpoint fields (cur : string) (s : string) : list string :=
  match s with
  | EmptyString => [String.rev cur]
  | String "." s' => String.rev cur :: fields "" s'
  | String c s' => fields (String c cur) s'
  end.

Fixpoint digitsValue (acc : N) (s : string) : option N :=
  match s with
  | EmptyString => Some acc
  | String c s' =>
      if isDigit c
      then digitsValue (acc * 10 + N.of_nat (nat_of_ascii c - 48))%N s'
      else None
  end.

Definition octet (f : string) : option N :=
  match f with
  | EmptyString => None
  | String c rest =>
      if (3 <? String.length f)%nat then None
      else if Ascii.eqb c "0" && negb (String.eqb rest "") then None
      else match digitsValue 0 f with
           | Some n => if (n <=? 255)%N then Some n else None
           | None => None
           end
  end.

Definition ParseIP (s : string) : option net.IP :=
  match map octet (fields "" s) with
  | [Some a; Some b; Some c; Some d] => Some (net.IPv4 a b c d)
  | _ => None
  end.

Definition lowerAscii (c : ascii) : ascii :=
  if (65 <=? nat_of_ascii c)%nat && (nat_of_ascii c <=? 90)%nat
  then ascii_of_nat (nat_of_ascii c + 32) else c.

Fixpoint ToLower (s : string) : string :=
  match s with
  | EmptyString => EmptyString
  | String c s' => String (lowerAscii c) (ToLower s')
  end.

Inductive Token :=
| LBrace | RBrace | Colon | Comma | Str (s : string) | Null.

(** The quotation mark, character 34. *)
Definition isQuote (c : ascii) : bool := (nat_of_ascii c =? 34)%nat.

(** [inStr] holds the reversed text of the string being read. *)
Fixpoint tokens (inStr : option string) (s : string)
  : option (list Token) :=
  match s, inStr with
  | EmptyString, None => Some []
  | EmptyString, Some _ => None
  | String c s', Some cur =>
      if isQuote c then cons (Str (String.rev cur)) <$> tokens None s'
      else if (nat_of_ascii c =? 92)%nat then None
      else tokens (Some (String c cur)) s'
  | String c s', None =>
      if isQuote c then tokens (Some "") s'
      else if Ascii.eqb c "{" then cons LBrace <$> tokens None s'
      else if Ascii.eqb c "}" then cons RBrace <$> tokens None s'
      else if Ascii.eqb c ":" then cons Colon <$> tokens None s'
      else if Ascii.eqb c "," then cons Comma <$> tokens None s'
      else if Ascii.eqb c " " || (nat_of_ascii c =? 9)%nat
              || (nat_of_ascii c =? 10)%nat || (nat_of_ascii c =? 13)%nat
      then tokens None s'
      else if Ascii.eqb c "n" then
        match s' with
        | String c2 (String c3 (String c4 s4)) =>
            if Ascii.eqb c2 "u" && Ascii.eqb c3 "l" && Ascii.eqb c4 "l"
            then cons Null <$> tokens None s4
            else None
        | _ => None
        end
      else None
  end.

(** Where the decoder stands between two tokens. *)
Inductive Pos :=
| Start
| OuterKey (first : bool)
| OuterColon (k : string)
| InnerOpen (k : string)
| InnerKey (k : string) (m : gmap string string) (first : bool)
| InnerColon (k : string) (m : gmap string string) (ik : string)
| InnerValue (k : string) (m : gmap string string) (ik : string)
| InnerNext (k : string) (m : gmap string string)
| OuterNext
| Finished.

Fixpoint decode (p : Pos) (acc : gmap string (gmap string string))
         (ts : list Token)
  : option (gmap string (gmap string string)) :=
  match ts with
  | [] => match p with Finished => Some acc | _ => None end
  | t :: ts' =>
      match p, t with
      | Start, LBrace => decode (OuterKey true) acc ts'
      | Start, Null => decode Finished acc ts'
      | OuterKey _, Str k => decode (OuterColon k) acc ts'
      | OuterKey true, RBrace => decode Finished acc ts'
      | OuterColon k, Colon => decode (InnerOpen k) acc ts'
      | InnerOpen k, LBrace => decode (InnerKey k ∅ true) acc ts'
      | InnerOpen k, Null => decode OuterNext (<[k := ∅]> acc) ts'
      | InnerKey k m _, Str ik => decode (InnerColon k m ik) acc ts'
      | InnerKey k m true, RBrace => decode OuterNext (<[k := m]> acc) ts'
      | InnerColon k m ik, Colon => decode (InnerValue k m ik) acc ts'
      | InnerValue k m ik, Str v => decode (InnerNext k (<[ik := v]> m)) acc ts'
      | InnerValue k m ik, Null => decode (InnerNext k (<[ik := ""]> m)) acc ts'
      | InnerNext k m, Comma => decode (InnerKey k m false) acc ts'
      | InnerNext k m, RBrace => decode OuterNext (<[k := m]> acc) ts'
      | OuterNext, Comma => decode (OuterKey false) acc ts'
      | OuterNext, RBrace => decode Finished acc ts'
      | _, _ => None
      end
  end.

Definition Unmarshal (s : string)
  : option (gmap string (gmap string string)) :=
  tokens None s ≫= decode Start ∅.



Definition lib : GoLib :=
  {| net_ParseIP := ParseIP;
     strings_ToLower := ToLower;
     json_Unmarshal := Unmarshal |}.

(** [range] in the order of [map_to_list], and in the opposite order. *)
Definition ascending : MapRange :=
  {| range_outer := map_to_list;
     range_outer_perm := fun m => reflexivity (map_to_list m);
     range_inner := fun _ => map_to_list;
     range_inner_perm := fun _ m => reflexivity (map_to_list m) |}.

Definition descending : MapRange :=
  {| range_outer := fun m => reverse (map_to_list m);
     range_outer_perm := fun m => reverse_Permutation (map_to_list m);
     range_inner := fun _ m => reverse (map_to_list m);
     range_inner_perm := fun _ m => reverse_Permutation (map_to_list m) |}.

(** JSON text is written below with an apostrophe where the
    quotation mark stands. *)
Fixpoint json (s : string) : string :=
  match s with
  | EmptyString => EmptyString
  | String c s' =>
      String (if (nat_of_ascii c =? 39)%nat then ascii_of_nat 34 else c)
             (json s')
  end.

(** The Service of the specification's end-to-end example. *)
Definition exampleService (annotations : gmap string string)
  : corev1.Service :=
  {| corev1.Name := "example";
     corev1.Namespace := "default";
     corev1.Annotations := annotations;
     corev1.Spec_Type := "LoadBalancer";
     corev1.Spec_ClusterIP := "10.0.0.7";
     corev1.Spec_Ports :=
       [ {| corev1.PortName := "http"; corev1.Protocol := "TCP";
            corev1.Port := 80 |} ];
     corev1.Status_LoadBalancer_Ingress := [ {| corev1.IP := "192.0.2.10" |} ]
  |}.

End example.


(* ================================================================== *)
(** ** Notions used to state the properties                           *)
(* ================================================================== *)

(** The number of ['.'] characters that end [s]; used to state that a
    name has a single trailing dot. *)
Fixpoint leadingDots (s : string) : nat :=
  match s with
  | String "." s' => S (leadingDots s')
  | _ => 0
  end.

Definition trailingDots (s : string) : nat := leadingDots (String.rev s).

(** The IPv6 reverse name in the words of the specification: the bytes
    from last to first, for each byte its low nibble and then its high
    nibble, every nibble a label of its own, then [ip6.arpa.]. *)
Definition ip6Labels (addr : net.IP) : list string :=
  flat_map (fun b => [fmt.x (N.land b 15); fmt.x (N.shiftr (N.land b 240) 4)])
           (rev addr).

Definition ip6ArpaName (addr : net.IP) : string :=
  fold_right (fun label rest => label +:+ "." +:+ rest) "ip6.arpa."
             (ip6Labels addr).

(** What one byte adds to the text of the IPv6 reverse name. *)
Definition nibbles (a : string) (b : N) : string :=
  a +:+ fmt.x (N.land b 15) +:+ "."
    +:+ fmt.x (N.shiftr (N.land b 240) 4) +:+ ".".



(** The bytes that [buildARecord] puts into the forward record. *)
Definition addressBytes (ip : net.IP) : net.IP :=
  if (length (net.To4 ip) =? net.IPv4len)%nat then net.To4 ip
  else net.To16 ip.

Definition addressOf (r : dns.RR) : option net.IP :=
  match r with
  | dns.A _ a | dns.AAAA _ a => Some a
  | _ => None
  end.

(** The text of the last load-balancer entry whose [IP] is not empty. *)
Definition lastNonEmptyIP (ingress : list corev1.LoadBalancerIngress)
  : option string :=
  last (filter (fun ip => ip <> "") (corev1.IP <$> ingress)).


(** Two records that differ at most in the order of the strings of a
    text record. *)
Definition sameUpToTxtOrder (r1 r2 : dns.RR) : Prop :=
  match r1, r2 with
  | dns.TXT h1 txt1, dns.TXT h2 txt2 => h1 = h2 /\ txt1 ≡ₚ txt2
  | _, _ => r1 = r2
  end.

(** The namespace rule read as a rule of both controllers of [main.go]
    that is tested ahead of everything else: an Ingress outside the
    configured namespace leaves [buildRecords] through the namespace
    test, and a Service outside of it gets no record. *)
Definition ingress_namespace_tested_first `{!GoLib} (cfg : main.Config)
  : Prop :=
  forall ingress : v1.Ingress,
    main.namespace cfg <> "" ->
    v1.Namespace ingress <> main.namespace cfg ->
    ingress.buildRecordsAt (main.ingressController cfg) (IngressObj ingress)
    = (ReturnNamespace, []).

Definition service_namespace_filtered `{!GoLib} (cfg : main.Config) : Prop :=
  forall (rng : MapRange) (service : corev1.Service),
    main.namespace cfg <> "" ->
    corev1.Namespace service <> main.namespace cfg ->
    service.buildRecords rng (main.serviceController cfg) (ServiceObj service)
    = [].

Definition namespace_excluded_first `{!GoLib} (cfg : main.Config) : Prop :=
  ingress_namespace_tested_first cfg /\ service_namespace_filtered cfg.

(** The cluster-address rule read on [service.ServiceSource]: that
    watcher has no switch for internal addresses, so nothing can turn
    their publication on, and a Service of type ClusterIP would get no
    address record. *)
Definition clusterIP_needs_internal_switch `{!GoLib} : Prop :=
  forall (rng : MapRange) (s : service.ServiceSource)
         (service : corev1.Service),
    corev1.Spec_Type service = "ClusterIP" ->
    omap addressOf (service.buildRecords rng s (ServiceObj service)) = [].

(** Two runs of [buildRecords] on the same watcher and object return
    the same list. *)
Definition buildRecords_deterministic `{!GoLib} : Prop :=
  forall (rng1 rng2 : MapRange) (s : service.ServiceSource) (obj : Object),
    service.buildRecords rng1 s obj = service.buildRecords rng2 s obj.

(** What the two loops add to the strings of port [k] while the outer
    loop is at [entry]. *)
Definition txtOfEntry (rng : MapRange) (k : string)
           (entry : string * gmap string string) : list string :=
  if decide (k = entry.1)
  then (fun kv : string * string => kv.1 +:+ "=" +:+ kv.2)
         <$> range_inner rng entry.1 entry.2
  else [].

(** The test that [IngressSource.buildRecords] makes on a rule. *)
Definition localHost (rule : v1.IngressRule) : Prop :=
  v1.Host rule <> "" /\ strings.HasSuffix (v1.Host rule) ".local" = true.

(** A record as the builders leave it: the type of its variant in the
    header, class and TTL not yet set, four bytes in an A record,
    priority and weight 0 and a port between 1 and 65535 in an SRV
    record, at least one string in a TXT record. *)
Definition asBuilt (r : dns.RR) : Prop :=
  dns.Class (dns.Header r) = 0%Z /\ dns.Ttl (dns.Header r) = 0%Z /\
  match r with
  | dns.A h a => dns.Rrtype h = dns.TypeA /\ length a = 4
  | dns.AAAA h _ => dns.Rrtype h = dns.TypeAAAA
  | dns.PTR h _ => dns.Rrtype h = dns.TypePTR
  | dns.SRV h priority weight port _ =>
      dns.Rrtype h = dns.TypeSRV /\ priority = 0%Z /\ weight = 0%Z
      /\ (0 < port < 65536)%Z
  | dns.TXT h txt => dns.Rrtype h = dns.TypeTXT /\ txt <> []
  end.

(** The owner name of a record ends in one dot. *)
Definition ownerDotted (r : dns.RR) : Prop :=
  trailingDots (dns.Name (dns.Header r)) = 1.

(** The hostname and the instance name that
    [ServiceSource.buildRecords] works with. *)
Definition hostnameOf (service : corev1.Service) : string :=
  service.normalizeHostname
    (default (corev1.Name service +:+ "." +:+ corev1.Namespace service
              +:+ ".local.")
             (corev1.Annotations service !! service.annHostname)).

Definition instancenameOf (service : corev1.Service) : string :=
  default (corev1.Namespace service +:+ "/" +:+ corev1.Name service)
          (corev1.Annotations service !! service.annInstance).

(** A port for which [buildSRVRecord] does not return early, given a
    non-empty instance name. *)
Definition bundledPort (port : corev1.ServicePort) : Prop :=
  corev1.PortName port <> ""
  /\ service.uint16 (corev1.Port port) <> 0%Z
  /\ (corev1.Protocol port = "TCP" \/ corev1.Protocol port = "UDP").

(** The same Service with other ports. *)
Definition withPorts (service : corev1.Service)
           (ports : list corev1.ServicePort) : corev1.Service :=
  {| corev1.Name := corev1.Name service;
     corev1.Namespace := corev1.Namespace service;
     corev1.Annotations := corev1.Annotations service;
     corev1.Spec_Type := corev1.Spec_Type service;
     corev1.Spec_ClusterIP := corev1.Spec_ClusterIP service;
     corev1.Spec_Ports := ports;
     corev1.Status_LoadBalancer_Ingress :=
       corev1.Status_LoadBalancer_Ingress service |}.

(** The record that a call on the publisher carries. *)
Definition recordOf (c : main.Call) : dns.RR :=
  match c with
  | main.Publish r | main.UnPublish r => r
  end.

(** [c2] takes back what [c1] announced, a text record allowing for
    another order of its strings. *)
Definition retracts (c1 c2 : main.Call) : Prop :=
  match c1, c2 with
  | main.Publish r1, main.UnPublish r2 => sameUpToTxtOrder r1 r2
  | _, _ => False
  end.

Definition isByte (b : N) : Prop := (b < 256)%N.

#[global] Instance localHost_dec (rule : v1.IngressRule) :
  Decision (localHost rule).
Proof. unfold localHost. apply _. Defined.

#[global] Instance bundledPort_dec (port : corev1.ServicePort) :
  Decision (bundledPort port).
Proof. unfold bundledPort. apply _. Defined.

(** The forward record and the reverse name that [buildARecord] makes
    for [ip]. *)
Definition forwardRecord (name : string) (ip : net.IP) : dns.RR :=
  if (length (net.To4 ip) =? net.IPv4len)%nat
  then dns.A (dns.hdr name dns.TypeA) (net.To4 ip)
  else dns.AAAA (dns.hdr name dns.TypeAAAA) (net.To16 ip).

Definition reverseNameOf (ip : net.IP) : string :=
  if (length (net.To4 ip) =? net.IPv4len)%nat
  then records.reverseIPv4 (net.To4 ip)
  else records.reverseIPv6 (net.To16 ip).

(** In the bundles of a Service: no address record, and every SRV
    record points to [host]. *)
Definition bundleRecordFor (host : string) (r : dns.RR) : Prop :=
  match r with
  | dns.SRV _ _ _ _ target => target = host
  | dns.A _ _ | dns.AAAA _ _ => False
  | _ => True
  end.

(** The same Service under another name, in another namespace. *)
Definition renamed (service : corev1.Service) (name namespace : string)
  : corev1.Service :=
  {| corev1.Name := name;
     corev1.Namespace := namespace;
     corev1.Annotations := corev1.Annotations service;
     corev1.Spec_Type := corev1.Spec_Type service;
     corev1.Spec_ClusterIP := corev1.Spec_ClusterIP service;
     corev1.Spec_Ports := corev1.Spec_Ports service;
     corev1.Status_LoadBalancer_Ingress :=
       corev1.Status_LoadBalancer_Ingress service |}.

(** The class and the TTL that the dispatch loop writes. *)
Definition stamped (cfg : main.Config) (r : dns.RR) : Prop :=
  dns.Class (dns.Header r) = dns.ClassINET
  /\ dns.Ttl (dns.Header r) = (main.recordTTL cfg mod 4294967296)%Z
  /\ (0 <= dns.Ttl (dns.Header r) < 4294967296)%Z.

(** A string without a dot. *)
Fixpoint dotFree (s : string) : bool :=
  match s with
  | EmptyString => true
  | String c s' => negb (Ascii.eqb c ".") && dotFree s'
  end.

(** A slice of 4 or 16 bytes. *)
Definition properIP (ip : net.IP) : Prop :=
  (length ip = 4 \/ length ip = 16) /\ Forall isByte ip.

(** The same Service with other annotations. *)
Definition withAnnotations (service : corev1.Service)
           (annotations : gmap string string) : corev1.Service :=
  {| corev1.Name := corev1.Name service;
     corev1.Namespace := corev1.Namespace service;
     corev1.Annotations := annotations;
     corev1.Spec_Type := corev1.Spec_Type service;
     corev1.Spec_ClusterIP := corev1.Spec_ClusterIP service;
     corev1.Spec_Ports := corev1.Spec_Ports service;
     corev1.Status_LoadBalancer_Ingress :=
       corev1.Status_LoadBalancer_Ingress service |}.


(* ================================================================== *)
(** * Properties                                                      *)
(* ================================================================== *)

(** ** Strings *)

Section string_facts.

Lemma append_cons (c : ascii) (a b : string) :
  String c a +:+ b = String c (a +:+ b).
Proof. reflexivity. Qed.

Lemma append_nil_l (b : string) : "" +:+ b = b.
Proof. reflexivity. Qed.

Lemma append_assoc (a b c : string) : (a +:+ b) +:+ c = a +:+ (b +:+ c).
Proof.
  induction a as [|x a IH]; [done|].
  by rewrite !append_cons, IH.
Qed.

Lemma length_append (a b : string) :
  String.length (a +:+ b) = String.length a + String.length b.
Proof.
  induction a as [|x a IH]; [done|].
  rewrite append_cons. simpl. by rewrite IH.
Qed.

Lemma substring_all (s : string) : substring 0 (String.length s) s = s.
Proof. induction s as [|c s IH]; simpl; [done | by rewrite IH]. Qed.

Lemma substring_skip (p s : string) (m : nat) :
  substring (String.length p) m (p +:+ s) = substring 0 m s.
Proof.
  induction p as [|c p IH]; [done|].
  rewrite append_cons. simpl. exact IH.
Qed.

Lemma substring_split (n m : nat) (s : string) :
  n + m = String.length s ->
  s = substring 0 n s +:+ substring n m s.
Proof.
  revert s. induction n as [|n IH]; intros s Hlen.
  - simpl in Hlen. subst m. rewrite substring_all.
    by destruct s.
  - destruct s as [|c s]; simpl in *; [lia|].
    rewrite append_cons. f_equal. apply IH. lia.
Qed.

(** [HasSuffix] decides "ends with". *)
Lemma HasSuffix_spec (s suffix : string) :
  strings.HasSuffix s suffix = true <-> exists p, s = p +:+ suffix.
Proof.
  unfold strings.HasSuffix. rewrite andb_true_iff, Nat.leb_le, String.eqb_eq.
  split.
  - intros [Hle Hsub].
    exists (substring 0 (String.length s - String.length suffix) s).
    etransitivity; [apply (substring_split
      (String.length s - String.length suffix) (String.length suffix)); lia|].
    by rewrite Hsub.
  - intros [p ->]. rewrite length_append. split; [lia|].
    replace (String.length p + String.length suffix - String.length suffix)
      with (String.length p) by lia.
    by rewrite substring_skip, substring_all.
Qed.

Lemma HasSuffix_append (p suffix : string) :
  strings.HasSuffix (p +:+ suffix) suffix = true.
Proof. apply HasSuffix_spec. by exists p. Qed.

Lemma rev_app_append (a b c : string) :
  String.rev_app (a +:+ b) c = String.rev_app b (String.rev_app a c).
Proof.
  revert c. induction a as [|x a IH]; intros c; [done|].
  rewrite append_cons. simpl. apply IH.
Qed.

(** A name that ends in [.local.] ends in one dot, not more. *)
Lemma trailingDots_local (p : string) :
  trailingDots (p +:+ ".local.") = 1.
Proof.
  unfold trailingDots, String.rev. by rewrite rev_app_append.
Qed.

End string_facts.

(** ** Hostname normalization *)

Section normalize_facts.

Lemma normalizeHostname_local (x : string) :
  strings.HasSuffix (service.normalizeHostname x) ".local." = true.
Proof.
  unfold service.normalizeHostname.
  set (h := if negb (strings.HasSuffix x ".") then x +:+ "." else x).
  assert (Hdot : strings.HasSuffix h "." = true).
  { subst h. destruct (strings.HasSuffix x ".") eqn:E; simpl; [done|].
    apply HasSuffix_append. }
  destruct (strings.HasSuffix h ".local.") eqn:E; simpl; [done|].
  apply HasSuffix_spec in Hdot as [p ->].
  rewrite append_assoc. apply (HasSuffix_append p ".local.").
Qed.

Lemma local_ends_in_dot (s : string) :
  strings.HasSuffix s ".local." = true -> strings.HasSuffix s "." = true.
Proof.
  intros [p ->]%HasSuffix_spec.
  change ".local." with (".local" +:+ ".").
  rewrite <- append_assoc. apply HasSuffix_append.
Qed.

Lemma normalizeHostname_fixed (s : string) :
  strings.HasSuffix s ".local." = true -> service.normalizeHostname s = s.
Proof.
  intros H. unfold service.normalizeHostname.
  rewrite (local_ends_in_dot s H). cbn [negb]. by rewrite H.
Qed.

End normalize_facts.

(** C4. Hostname normalization is idempotent on every string, and its
    result ends in [.local.], hence in exactly one dot. *)
Theorem normalizeHostname_idempotent (x : string) :
  service.normalizeHostname (service.normalizeHostname x)
  = service.normalizeHostname x
  /\ strings.HasSuffix (service.normalizeHostname x) ".local." = true
  /\ (exists p, service.normalizeHostname x = p +:+ ".local.")
  /\ trailingDots (service.normalizeHostname x) = 1.
Proof.
  pose proof (normalizeHostname_local x) as Hloc.
  split; [by apply normalizeHostname_fixed|].
  split; [done|].
  apply HasSuffix_spec in Hloc as [p Hp].
  split; [by exists p|].
  rewrite Hp. apply trailingDots_local.
Qed.

(** ** Address and reverse records *)

Section reverse_names.

Lemma fold_left_ext_in {A B} (f g : A -> B -> A) (l : list B) (a : A) :
  (forall x, In x l -> forall a, f a x = g a x) ->
  fold_left f l a = fold_left g l a.
Proof.
  revert a. induction l as [|x l IH]; intros a Hfg; simpl; [done|].
  rewrite (Hfg x) by (by left). apply IH. intros y Hy. apply Hfg. by right.
Qed.

Lemma fold_left_seq_nth {A B} (f : A -> B -> A) (d : B) (l : list B) (a : A) :
  fold_left (fun a i => f a (nth i l d)) (seq 0 (length l)) a
  = fold_left f l a.
Proof.
  revert a. induction l as [|x l IH]; intros a; simpl; [done|].
  rewrite <- seq_shift, <- (IH (f a x)).
  generalize (f a x) (seq 0 (length l)). intros a' idx. revert a'.
  induction idx as [|i idx IHidx]; intros a'; simpl; [done | apply IHidx].
Qed.

Lemma nibbles_labels (l : list N) (a tail : string) :
  fold_left nibbles l a +:+ tail
  = a +:+ fold_right (fun label rest => label +:+ "." +:+ rest) tail
            (flat_map (fun b => [fmt.x (N.land b 15);
                                 fmt.x (N.shiftr (N.land b 240) 4)]) l).
Proof.
  revert a. induction l as [|b l IH]; intros a; simpl.
  - unfold fold_left. destruct a; [done|]. f_equal.
  - rewrite IH. unfold nibbles. by rewrite !append_assoc.
Qed.

(** The loop of the IPv6 branch builds the name that the specification
    describes. *)
Lemma reverseIPv6_labels (addr : net.IP) :
  records.reverseIPv6 addr = ip6ArpaName addr.
Proof.
  unfold records.reverseIPv6, ip6ArpaName, ip6Labels.
  rewrite (fold_left_ext_in (records.nibbleStep addr)
             (fun a i => nibbles a (nth i (rev addr) 0%N))).
  - rewrite <- (length_rev addr) at 1.
    rewrite fold_left_seq_nth, nibbles_labels. done.
  - intros i Hi a. apply in_seq in Hi. unfold records.nibbleStep, nibbles.
    rewrite rev_nth by lia.
    by replace (length addr - 1 - i) with (length addr - S i) by lia.
Qed.


Lemma low_nibble_lt (b : N) : (N.land b 15 < 16)%N.
Proof.
  change 15%N with (N.ones 4). rewrite N.land_ones.
  by apply N.mod_upper_bound.
Qed.

Lemma high_nibble_lt (b : N) : (N.shiftr (N.land b 240) 4 < 16)%N.
Proof.
  rewrite N.shiftr_land. change (N.shiftr 240 4) with 15%N.
  apply low_nibble_lt.
Qed.




End reverse_names.




(** ** The service-discovery bundle *)

(** C6. The bundle builder returns no record when the instance name, the
    service name or the hostname is empty, when the port is zero, or when
    the protocol is neither TCP nor UDP.  Otherwise it returns the
    pointer, the service and the text record, in this order: the pointer
    is owned by [_<lowercased service>._<proto>.local.] and points to
    [<instance>._<lowercased service>._<proto>.local.], which owns the
    service record (priority 0, weight 0, the port, the hostname as
    target) and the text record (the strings handed in, or one empty
    string when there are none). *)
Theorem buildSRVRecord_bundle `{!GoLib}
        (instancename servicename protocol hostname : string)
        (port : Z) (txt : list string) :
  ((instancename = "" \/ servicename = "" \/ hostname = "" \/ port = 0%Z
    \/ (protocol <> "TCP" /\ protocol <> "UDP")) ->
   records.buildSRVRecord instancename servicename protocol hostname port txt
   = [])
  /\ (instancename <> "" -> servicename <> "" -> hostname <> "" ->
      port <> 0%Z ->
      forall proto,
        (protocol = "TCP" /\ proto = "tcp") \/ (protocol = "UDP" /\ proto = "udp") ->
        let group :=
          "_" +:+ strings_ToLower servicename +:+ "._" +:+ proto +:+ ".local." in
        let owner :=
          instancename +:+ "._" +:+ strings_ToLower servicename +:+ "._"
          +:+ proto +:+ ".local." in
        records.buildSRVRecord instancename servicename protocol hostname
          port txt
        = [ dns.PTR (dns.hdr group dns.TypePTR) owner;
            dns.SRV (dns.hdr owner dns.TypeSRV) 0 0 port hostname;
            dns.TXT (dns.hdr owner dns.TypeTXT)
                    (match txt with [] => [""] | _ => txt end) ]).
Proof.
  split.
  - intros Hskip. unfold records.buildSRVRecord.
    destruct (String.eqb instancename "" || String.eqb servicename ""
              || String.eqb hostname "" || (port =? 0)%Z) eqn:Hguard; [done|].
    apply orb_false_iff in Hguard as [Hguard Hport].
    apply orb_false_iff in Hguard as [Hguard Hhost].
    apply orb_false_iff in Hguard as [Hinst Hsvc].
    apply String.eqb_neq in Hinst, Hsvc, Hhost. apply Z.eqb_neq in Hport.
    destruct Hskip as [?|[?|[?|[?|[Htcp Hudp]]]]]; try done.
    unfold records.protoOf, records.ProtocolTCP, records.ProtocolUDP.
    apply String.eqb_neq in Htcp, Hudp. by rewrite Htcp, Hudp.
  - intros Hinst Hsvc Hhost Hport proto Hproto group owner.
    unfold records.buildSRVRecord.
    apply String.eqb_neq in Hinst, Hsvc, Hhost. apply Z.eqb_neq in Hport.
    rewrite Hinst, Hsvc, Hhost, Hport. cbn [orb].
    assert (records.protoOf protocol = Some proto) as ->
      by (destruct Hproto as [[-> ->]|[-> ->]]; reflexivity).
    destruct txt; reflexivity.
Qed.

Lemma buildSRVRecord_bundle_witness :
  @records.buildSRVRecord example.lib "default/example" "HTTP" "TCP"
    "example.default.local." 80 []
  = [ dns.PTR (dns.hdr "_http._tcp.local." dns.TypePTR)
              "default/example._http._tcp.local.";
      dns.SRV (dns.hdr "default/example._http._tcp.local." dns.TypeSRV)
              0 0 80 "example.default.local.";
      dns.TXT (dns.hdr "default/example._http._tcp.local." dns.TypeTXT) [""] ]
  /\ @records.buildSRVRecord example.lib "default/example" "dns" "SCTP"
       "example.default.local." 53 ["a=1"] = [].
Proof.
  split.
  - exact (proj2 (@buildSRVRecord_bundle example.lib "default/example" "HTTP"
                    "TCP" "example.default.local." 80%Z [])
                 ltac:(discriminate) ltac:(discriminate) ltac:(discriminate)
                 ltac:(discriminate) "tcp" (or_introl (conj eq_refl eq_refl))).
  - apply (proj1 (@buildSRVRecord_bundle example.lib "default/example" "dns"
                    "SCTP" "example.default.local." 53%Z ["a=1"])).
    right; right; right; right. split; discriminate.
Defined.

(** ** Update notifications *)

Section update_order.
Context `{!GoLib}.

Lemma dispatch_app (cfg : main.Config) (ch1 ch2 : resource.Chan) :
  main.dispatch cfg (ch1 ++ ch2)
  = main.dispatch cfg ch1 ++ main.dispatch cfg ch2.
Proof. unfold main.dispatch. apply flat_map_app. Qed.

(** What the dispatch loop does with a Deleted event followed by an
    Added event: every record of the first is unpublished before any
    record of the second is published. *)
Lemma dispatch_deleted_added (cfg : main.Config) (ty : string)
      (old new : list dns.RR) :
  main.dispatch cfg
    [ {| resource.SourceType := ty; resource.Action := resource.Deleted;
         resource.Records := old |};
      {| resource.SourceType := ty; resource.Action := resource.Added;
         resource.Records := new |} ]
  = map (fun r => main.UnPublish (main.stamp cfg r)) old
    ++ map (fun r => main.Publish (main.stamp cfg r)) new.
Proof.
  unfold main.dispatch, main.advertise. simpl. by rewrite app_nil_r.
Qed.

Lemma ingress_onUpdate_sends (i : ingress.IngressSource)
      (oldObj newObj : Object) (ch : resource.Chan) :
  ingress.onUpdate i oldObj newObj ch
  = ch ++
    [ {| resource.SourceType := "ingress";
         resource.Action := resource.Deleted;
         resource.Records := ingress.buildRecords i oldObj |};
      {| resource.SourceType := "ingress";
         resource.Action := resource.Added;
         resource.Records := ingress.buildRecords i newObj |} ].
Proof.
  unfold ingress.onUpdate, ingress.onAdd, ingress.onDelete, resource.send.
  by rewrite <- app_assoc.
Qed.

Lemma service_onUpdate_sends (rngOld rngNew : MapRange)
      (s : service.ServiceSource) (oldObj newObj : Object)
      (ch : resource.Chan) :
  service.onUpdate rngOld rngNew s oldObj newObj ch
  = ch ++
    [ {| resource.SourceType := "service";
         resource.Action := resource.Deleted;
         resource.Records := service.buildRecords rngOld s oldObj |};
      {| resource.SourceType := "service";
         resource.Action := resource.Added;
         resource.Records := service.buildRecords rngNew s newObj |} ].
Proof.
  unfold service.onUpdate, service.onAdd, service.onDelete, resource.send.
  by rewrite <- app_assoc.
Qed.

Lemma service_ns_onUpdate_sends (s : service_ns.ServiceSource)
      (oldObj newObj : Object) (ch : resource.Chan) :
  service_ns.onUpdate s oldObj newObj ch
  = ch ++
    [ {| resource.SourceType := "service";
         resource.Action := resource.Deleted;
         resource.Records := service_ns.buildRecords s oldObj |};
      {| resource.SourceType := "service";
         resource.Action := resource.Added;
         resource.Records := service_ns.buildRecords s newObj |} ].
Proof.
  unfold service_ns.onUpdate, service_ns.onAdd, service_ns.onDelete,
    resource.send.
  by rewrite <- app_assoc.
Qed.

End update_order.

(** C7. On an update, each watcher sends the Deleted event built from
    the old object and then the Added event built from the new object,
    one after the other and after everything it sent before; the
    dispatch loop, which takes the events in the order in which they were
    sent, unpublishes the old records before it publishes the new ones. *)
Theorem onUpdate_deleted_then_added `{!GoLib}
        (i : ingress.IngressSource) (s : service.ServiceSource)
        (s' : service_ns.ServiceSource) (rngOld rngNew : MapRange)
        (oldObj newObj : Object) (notifyChan : resource.Chan)
        (cfg : main.Config) :
  ingress.onUpdate i oldObj newObj notifyChan
  = notifyChan ++
    [ {| resource.SourceType := "ingress"; resource.Action := resource.Deleted;
         resource.Records := ingress.buildRecords i oldObj |};
      {| resource.SourceType := "ingress"; resource.Action := resource.Added;
         resource.Records := ingress.buildRecords i newObj |} ]
  /\ service.onUpdate rngOld rngNew s oldObj newObj notifyChan
     = notifyChan ++
       [ {| resource.SourceType := "service";
            resource.Action := resource.Deleted;
            resource.Records := service.buildRecords rngOld s oldObj |};
         {| resource.SourceType := "service";
            resource.Action := resource.Added;
            resource.Records := service.buildRecords rngNew s newObj |} ]
  /\ service_ns.onUpdate s' oldObj newObj notifyChan
     = notifyChan ++
       [ {| resource.SourceType := "service";
            resource.Action := resource.Deleted;
            resource.Records := service_ns.buildRecords s' oldObj |};
         {| resource.SourceType := "service";
            resource.Action := resource.Added;
            resource.Records := service_ns.buildRecords s' newObj |} ]
  /\ main.dispatch cfg (ingress.onUpdate i oldObj newObj notifyChan)
     = main.dispatch cfg notifyChan
       ++ map (fun r => main.UnPublish (main.stamp cfg r))
              (ingress.buildRecords i oldObj)
       ++ map (fun r => main.Publish (main.stamp cfg r))
              (ingress.buildRecords i newObj)
  /\ main.dispatch cfg
       (service.onUpdate rngOld rngNew s oldObj newObj notifyChan)
     = main.dispatch cfg notifyChan
       ++ map (fun r => main.UnPublish (main.stamp cfg r))
              (service.buildRecords rngOld s oldObj)
       ++ map (fun r => main.Publish (main.stamp cfg r))
              (service.buildRecords rngNew s newObj).
Proof.
  split; [apply ingress_onUpdate_sends|].
  split; [apply service_onUpdate_sends|].
  split; [apply service_ns_onUpdate_sends|].
  split.
  - by rewrite ingress_onUpdate_sends, dispatch_app, dispatch_deleted_added.
  - by rewrite service_onUpdate_sends, dispatch_app, dispatch_deleted_added.
Qed.

(** ** The annotation-driven Service watcher *)

Section service_facts.
Context `{!GoLib}.

Lemma portStep_fold (instancename hostname : string)
      (svctxt : gmap string (list string))
      (ports : list corev1.ServicePort) (records : list dns.RR) :
  fold_left (service.portStep instancename hostname svctxt) ports records
  = records ++
    flat_map (fun port =>
                records.buildSRVRecord instancename (corev1.PortName port)
                  (corev1.Protocol port) hostname
                  (service.uint16 (corev1.Port port))
                  (default [] (svctxt !! corev1.PortName port)))
             ports.
Proof.
  revert records. induction ports as [|port ports IH]; intros records; simpl.
  - by rewrite app_nil_r.
  - rewrite IH. unfold service.portStep. by rewrite <- app_assoc.
Qed.



(** The eligibility test, read off the annotations. *)
Lemma not_published (rng : MapRange) (s : service.ServiceSource)
      (service : corev1.Service) :
  service.publishAll s = false ->
  corev1.Annotations service !! service.annHostname = None ->
  corev1.Annotations service !! service.annInstance = None ->
  corev1.Annotations service !! service.annTxt = None ->
  corev1.Annotations service !! service.annPublish = None ->
  service.buildRecordsAt rng s (ServiceObj service)
  = (ReturnNotPublished, []).
Proof.
  intros Hall Hh Hi Ht Hp. unfold service.buildRecordsAt.
  by rewrite Hall, Hh, Hi, Ht, Hp.
Qed.



End service_facts.

(** C3. A Service without any of the four annotations, watched with
    publish-all switched off, gets no record: [buildRecords] returns the
    empty list through its eligibility test.  Hence a Service that gets
    a record has publish-all on or carries the hostname, the
    service-instance, the service-txt or the publish annotation. *)
Theorem unannotated_service_gets_no_records `{!GoLib}
        (rng : MapRange) (s : service.ServiceSource)
        (service : corev1.Service) :
  (service.publishAll s = false ->
   corev1.Annotations service !! service.annHostname = None ->
   corev1.Annotations service !! service.annInstance = None ->
   corev1.Annotations service !! service.annTxt = None ->
   corev1.Annotations service !! service.annPublish = None ->
   service.buildRecords rng s (ServiceObj service) = []
   /\ fst (service.buildRecordsAt rng s (ServiceObj service))
      = ReturnNotPublished)
  /\ (service.buildRecords rng s (ServiceObj service) <> [] ->
      service.publishAll s = true
      \/ is_Some (corev1.Annotations service !! service.annHostname)
      \/ is_Some (corev1.Annotations service !! service.annInstance)
      \/ is_Some (corev1.Annotations service !! service.annTxt)
      \/ is_Some (corev1.Annotations service !! service.annPublish)).
Proof.
  split.
  - intros Hall Hh Hi Ht Hp. unfold service.buildRecords.
    by rewrite (not_published rng s service Hall Hh Hi Ht Hp).
  - intros Hne.
    destruct (service.publishAll s) eqn:Hall; [by left|].
    destruct (corev1.Annotations service !! service.annHostname) eqn:Hh;
      [by right; left|].
    destruct (corev1.Annotations service !! service.annInstance) eqn:Hi;
      [by right; right; left|].
    destruct (corev1.Annotations service !! service.annTxt) eqn:Ht;
      [by right; right; right; left|].
    destruct (corev1.Annotations service !! service.annPublish) eqn:Hp;
      [by right; right; right; right|].
    exfalso. apply Hne. unfold service.buildRecords.
    by rewrite (not_published rng s service Hall Hh Hi Ht Hp).
Qed.

Lemma unannotated_service_gets_no_records_witness :
  @service.buildRecords example.lib example.ascending
    (service.NewServicesWatcher false) (ServiceObj (example.exampleService ∅))
  = []
  /\ is_Some (corev1.Annotations
                (example.exampleService {[ service.annPublish := "" ]})
              !! service.annPublish).
Proof.
  split.
  - apply (proj1 (@unannotated_service_gets_no_records example.lib
                    example.ascending (service.NewServicesWatcher false)
                    (example.exampleService ∅)));
      reflexivity.
  - destruct (proj2 (@unannotated_service_gets_no_records example.lib
                       example.ascending (service.NewServicesWatcher false)
                       (example.exampleService {[ service.annPublish := "" ]})))
      as [H|[H|[H|[H|H]]]];
      [ by vm_compute | discriminate H | | | | exact H ];
      vm_compute in H; destruct H as [x Hx]; discriminate Hx.
Defined.

(** ** Address selection *)

Section address_facts.
Context `{!GoLib}.

(** The loop over the load-balancer entries keeps the parse of the last
    entry whose [IP] is not empty. *)
Lemma loadBalancerIP_last (ingress : list corev1.LoadBalancerIngress) :
  loadBalancerIP ingress = lastNonEmptyIP ingress ≫= net_ParseIP.
Proof.
  unfold loadBalancerIP, lastNonEmptyIP.
  induction ingress as [|lb ingress IH] using rev_ind; [done|].
  rewrite fold_left_app, fmap_app, filter_app. simpl.
  unfold lbStep at 1.
  destruct (String.eqb_spec (corev1.IP lb) "") as [Hempty|Hfull]; simpl.
  - rewrite IH. rewrite filter_cons_False by (by intros ?).
    by rewrite filter_nil, app_nil_r.
  - rewrite filter_cons_True by done.
    by rewrite filter_nil, last_snoc.
Qed.

Lemma addresses_buildARecord (name : string) (ip : net.IP) (rev : bool) :
  omap addressOf (records.buildARecord name ip rev) = [addressBytes ip].
Proof.
  unfold records.buildARecord, addressBytes.
  by destruct (length (net.To4 ip) =? net.IPv4len)%nat, rev.
Qed.

Lemma addresses_buildSRVRecord
      (instancename servicename protocol hostname : string) (port : Z)
      (txt : list string) :
  omap addressOf
    (records.buildSRVRecord instancename servicename protocol hostname
       port txt) = [].
Proof.
  unfold records.buildSRVRecord.
  destruct (_ || _); [done|].
  by destruct (records.protoOf protocol).
Qed.

Lemma addresses_service (rng : MapRange) (s : service.ServiceSource)
      (service : corev1.Service) :
  match service.serviceIP service with
  | None => service.buildRecords rng s (ServiceObj service) = []
  | Some ip =>
      Forall (fun a => a = addressBytes ip)
             (omap addressOf (service.buildRecords rng s (ServiceObj service)))
  end.
Proof.
  unfold service.buildRecords, service.buildRecordsAt.
  destruct (service.serviceIP service) as [ip|];
    destruct (negb (service.publishAll s) && _ && _ && _ && _);
    try done; cbn [snd]; try (by constructor).
  rewrite portStep_fold, omap_app, addresses_buildARecord.
  constructor; [done|].
  induction (corev1.Spec_Ports service) as [|port ports IH]; simpl;
    [constructor|].
  by rewrite omap_app, addresses_buildSRVRecord.
Qed.

Lemma addresses_service_ns (s : service_ns.ServiceSource)
      (service : corev1.Service) :
  match service_ns.serviceIP s service with
  | None => service_ns.buildRecords s (ServiceObj service) = []
  | Some ip =>
      Forall (fun a => a = addressBytes ip)
             (omap addressOf (service_ns.buildRecords s (ServiceObj service)))
  end.
Proof.
  unfold service_ns.buildRecords, service_ns.buildRecordsAt.
  destruct (service_ns.serviceIP s service) as [ip|]; [|done].
  destruct (negb (String.eqb (service_ns.namespace s) "") && _);
    cbn [snd]; [constructor|].
  destruct (String.eqb (corev1.Namespace service)
              (service_ns.defaultNamespace s) || _);
    rewrite ?omap_app, !addresses_buildARecord; repeat constructor.
Qed.

End address_facts.

(** C10. A Service of type ClusterIP whose cluster address is not the
    text of an IP address gets no record from either Service watcher,
    whatever its annotations and whatever the switches of the watcher
    are; [buildRecords] returns the empty list. *)
Theorem unparsable_clusterIP_gives_no_records `{!GoLib}
        (rng : MapRange) (s : service.ServiceSource)
        (s' : service_ns.ServiceSource) (service : corev1.Service) :
  corev1.Spec_Type service = "ClusterIP" ->
  net_ParseIP (corev1.Spec_ClusterIP service) = None ->
  service.buildRecords rng s (ServiceObj service) = []
  /\ service_ns.buildRecords s' (ServiceObj service) = [].
Proof.
  intros Htype Hparse. split.
  - pose proof (addresses_service rng s service) as Hrec.
    unfold service.serviceIP in Hrec. by rewrite Htype, Hparse in Hrec.
  - pose proof (addresses_service_ns s' service) as Hrec.
    unfold service_ns.serviceIP in Hrec. rewrite Htype, Hparse in Hrec.
    by destruct (service_ns.publishInternal s').
Qed.

Lemma unparsable_clusterIP_gives_no_records_witness :
  let headless (clusterIP : string) : corev1.Service :=
    {| corev1.Name := "db"; corev1.Namespace := "default";
       corev1.Annotations := {[ service.annPublish := "true" ]};
       corev1.Spec_Type := "ClusterIP";
       corev1.Spec_ClusterIP := clusterIP;
       corev1.Spec_Ports :=
         [ {| corev1.PortName := "pg"; corev1.Protocol := "TCP";
              corev1.Port := 5432 |} ];
       corev1.Status_LoadBalancer_Ingress := [] |} in
  let internal : service_ns.ServiceSource :=
    {| service_ns.defaultNamespace := "default";
       service_ns.withoutNamespace := true;
       service_ns.namespace := "";
       service_ns.publishInternal := true |} in
  (@service.buildRecords example.lib example.ascending
     (service.NewServicesWatcher true) (ServiceObj (headless "None")) = []
   /\ @service_ns.buildRecords example.lib internal
        (ServiceObj (headless "None")) = [])
  /\ (@service.buildRecords example.lib example.ascending
        (service.NewServicesWatcher true) (ServiceObj (headless "")) = []
      /\ @service_ns.buildRecords example.lib internal
           (ServiceObj (headless "")) = []).
Proof.
  intros headless internal. split.
  - apply (@unparsable_clusterIP_gives_no_records example.lib
             example.ascending (service.NewServicesWatcher true) internal
             (headless "None")); reflexivity.
  - apply (@unparsable_clusterIP_gives_no_records example.lib
             example.ascending (service.NewServicesWatcher true) internal
             (headless "")); reflexivity.
Defined.

(** C2, as far as it holds.  The watcher with the internal switch uses
    the cluster address of a ClusterIP Service only when the switch is
    on, and returns no record for such a Service when it is off; the
    annotation-driven watcher has no such switch and always takes the
    cluster address of a ClusterIP Service.  For a LoadBalancer Service
    both take the last load-balancer entry whose IP is not empty.  The
    address so selected is the only one that occurs in the address
    records of the result, and without it the result is empty. *)
Theorem service_address_selection `{!GoLib}
        (rng : MapRange) (s : service.ServiceSource)
        (s' : service_ns.ServiceSource) (service : corev1.Service) :
  (corev1.Spec_Type service = "ClusterIP" ->
   service_ns.serviceIP s' service
   = (if service_ns.publishInternal s'
      then net_ParseIP (corev1.Spec_ClusterIP service) else None)
   /\ (service_ns.publishInternal s' = false ->
       service_ns.buildRecords s' (ServiceObj service) = [])
   /\ service.serviceIP service = net_ParseIP (corev1.Spec_ClusterIP service))
  /\ (corev1.Spec_Type service = "LoadBalancer" ->
      service_ns.serviceIP s' service
      = lastNonEmptyIP (corev1.Status_LoadBalancer_Ingress service)
          ≫= net_ParseIP
      /\ service.serviceIP service
         = lastNonEmptyIP (corev1.Status_LoadBalancer_Ingress service)
             ≫= net_ParseIP)
  /\ match service_ns.serviceIP s' service with
     | None => service_ns.buildRecords s' (ServiceObj service) = []
     | Some ip =>
         Forall (fun a => a = addressBytes ip)
           (omap addressOf (service_ns.buildRecords s' (ServiceObj service)))
     end
  /\ match service.serviceIP service with
     | None => service.buildRecords rng s (ServiceObj service) = []
     | Some ip =>
         Forall (fun a => a = addressBytes ip)
           (omap addressOf (service.buildRecords rng s (ServiceObj service)))
     end.
Proof.
  split; [|split; [|split]].
  - intros Htype.
    assert (Hip : service_ns.serviceIP s' service
                  = if service_ns.publishInternal s'
                    then net_ParseIP (corev1.Spec_ClusterIP service)
                    else None).
    { unfold service_ns.serviceIP. rewrite Htype.
      by destruct (service_ns.publishInternal s'). }
    split; [exact Hip|]. split.
    + intros Hoff. pose proof (addresses_service_ns s' service) as Hrec.
      by rewrite Hip, Hoff in Hrec.
    + unfold service.serviceIP. by rewrite Htype.
  - intros Htype. unfold service_ns.serviceIP, service.serviceIP.
    rewrite Htype. cbn [String.eqb Ascii.eqb Bool.eqb andb].
    by rewrite loadBalancerIP_last.
  - apply addresses_service_ns.
  - apply addresses_service.
Qed.

Lemma service_address_selection_witness :
  let internalOff : service_ns.ServiceSource :=
    {| service_ns.defaultNamespace := "default";
       service_ns.withoutNamespace := false;
       service_ns.namespace := "";
       service_ns.publishInternal := false |} in
  let clusterService : corev1.Service :=
    {| corev1.Name := "db"; corev1.Namespace := "default";
       corev1.Annotations := ∅;
       corev1.Spec_Type := "ClusterIP";
       corev1.Spec_ClusterIP := "10.0.0.7";
       corev1.Spec_Ports := [];
       corev1.Status_LoadBalancer_Ingress := [] |} in
  let balanced : corev1.Service :=
    {| corev1.Name := "web"; corev1.Namespace := "default";
       corev1.Annotations := ∅;
       corev1.Spec_Type := "LoadBalancer";
       corev1.Spec_ClusterIP := "10.0.0.8";
       corev1.Spec_Ports := [];
       corev1.Status_LoadBalancer_Ingress :=
         [ {| corev1.IP := "192.0.2.10" |}; {| corev1.IP := "192.0.2.11" |};
           {| corev1.IP := "" |} ] |} in
  @service_ns.buildRecords example.lib internalOff (ServiceObj clusterService)
  = []
  /\ @service_ns.serviceIP example.lib internalOff balanced
     = Some (net.IPv4 192 0 2 11).
Proof.
  intros internalOff clusterService balanced. split.
  - apply (proj1 (@service_address_selection example.lib example.ascending
                    (service.NewServicesWatcher false) internalOff
                    clusterService));
      reflexivity.
  - rewrite (proj1 (proj1 (proj2 (@service_address_selection example.lib
               example.ascending (service.NewServicesWatcher false)
               internalOff balanced)) eq_refl)).
    reflexivity.
Defined.

(** The annotation-driven watcher publishes the cluster address of a
    ClusterIP Service that carries the publish annotation, although
    nothing switched internal addresses on. *)
Lemma clusterIP_published_without_switch :
  ~ @clusterIP_needs_internal_switch example.lib.
Proof.
  intros Hrule.
  specialize (Hrule example.ascending (service.NewServicesWatcher false)
    {| corev1.Name := "db"; corev1.Namespace := "default";
       corev1.Annotations := {[ service.annPublish := "true" ]};
       corev1.Spec_Type := "ClusterIP";
       corev1.Spec_ClusterIP := "10.0.0.7";
       corev1.Spec_Ports := [];
       corev1.Status_LoadBalancer_Ingress := [] |} eq_refl).
  vm_compute in Hrule. discriminate Hrule.
Qed.

(** ** The namespace restriction *)

(** C1, as far as it holds.  The Ingress watcher, and the Service
    watcher that has a namespace setting, return no record for an object
    outside a non-empty configured namespace.  Both test the namespace
    after they have determined the address: an object without a usable
    address leaves through the address test, any other through the
    namespace test. *)
Theorem namespace_filter_follows_address `{!GoLib}
        (i : ingress.IngressSource) (s' : service_ns.ServiceSource)
        (ingress : v1.Ingress) (service : corev1.Service) :
  (ingress.namespace i <> "" ->
   v1.Namespace ingress <> ingress.namespace i ->
   ingress.buildRecords i (IngressObj ingress) = []
   /\ fst (ingress.buildRecordsAt i (IngressObj ingress))
      = match loadBalancerIP (v1.Status_LoadBalancer_Ingress ingress) with
        | None => ReturnNoAddress
        | Some _ => ReturnNamespace
        end)
  /\ (service_ns.namespace s' <> "" ->
      corev1.Namespace service <> service_ns.namespace s' ->
      service_ns.buildRecords s' (ServiceObj service) = []
      /\ fst (service_ns.buildRecordsAt s' (ServiceObj service))
         = match service_ns.serviceIP s' service with
           | None => ReturnNoAddress
           | Some _ => ReturnNamespace
           end).
Proof.
  split.
  - intros Hset Hother.
    unfold ingress.buildRecords, ingress.buildRecordsAt.
    destruct (loadBalancerIP _) as [ip|]; [|done].
    apply String.eqb_neq in Hset.
    assert (String.eqb (ingress.namespace i) (v1.Namespace ingress) = false)
      as Hne by (apply String.eqb_neq; congruence).
    by rewrite Hset, Hne.
  - intros Hset Hother.
    unfold service_ns.buildRecords, service_ns.buildRecordsAt.
    destruct (service_ns.serviceIP s' service) as [ip|]; [|done].
    apply String.eqb_neq in Hset.
    assert (String.eqb (service_ns.namespace s') (corev1.Namespace service)
            = false)
      as Hne by (apply String.eqb_neq; congruence).
    by rewrite Hset, Hne.
Qed.

Lemma namespace_filter_follows_address_witness :
  let prodOnly : ingress.IngressSource := ingress.NewIngressWatcher "prod" in
  let prodServices : service_ns.ServiceSource :=
    {| service_ns.defaultNamespace := "default";
       service_ns.withoutNamespace := false;
       service_ns.namespace := "prod";
       service_ns.publishInternal := false |} in
  let app : v1.Ingress :=
    {| v1.Namespace := "default";
       v1.Spec_Rules := [ {| v1.Host := "app.local" |} ];
       v1.Status_LoadBalancer_Ingress := [ {| corev1.IP := "192.0.2.10" |} ]
    |} in
  @ingress.buildRecordsAt example.lib prodOnly (IngressObj app)
  = (ReturnNamespace, [])
  /\ @service_ns.buildRecordsAt example.lib prodServices
       (ServiceObj (example.exampleService ∅))
     = (ReturnNamespace, []).
Proof.
  intros prodOnly prodServices app.
  destruct (@namespace_filter_follows_address example.lib prodOnly
              prodServices app (example.exampleService ∅)) as [Hi Hs].
  assert (Hset : ingress.namespace prodOnly <> "") by discriminate.
  assert (Hother : v1.Namespace app <> ingress.namespace prodOnly)
    by discriminate.
  assert (Hset' : service_ns.namespace prodServices <> "") by discriminate.
  assert (Hother' : corev1.Namespace (example.exampleService ∅)
                    <> service_ns.namespace prodServices) by discriminate.
  destruct (Hi Hset Hother) as [Hi1 Hi2].
  destruct (Hs Hset' Hother') as [Hs1 Hs2].
  split.
  - rewrite (surjective_pairing (ingress.buildRecordsAt prodOnly _)).
    unfold ingress.buildRecords in Hi1. rewrite Hi1, Hi2. reflexivity.
  - rewrite (surjective_pairing (service_ns.buildRecordsAt prodServices _)).
    unfold service_ns.buildRecords in Hs1. rewrite Hs1, Hs2. reflexivity.
Defined.

(** The Service controller of [main.go] is given no namespace and
    publishes a Service of another namespace; the Ingress controller
    drops an Ingress that has no address before it looks at the
    namespace. *)
Lemma namespace_not_excluded_first :
  let cfg : main.Config :=
    {| main.namespace := "prod"; main.publishAll := false;
       main.recordTTL := 120 |} in
  ~ @service_namespace_filtered example.lib cfg
  /\ ~ @ingress_namespace_tested_first example.lib cfg
  /\ ~ @namespace_excluded_first example.lib cfg.
Proof.
  intros cfg.
  assert (Hs : ~ @service_namespace_filtered example.lib cfg).
  { intros Hrule.
    specialize (Hrule example.ascending
      (example.exampleService {[ service.annPublish := "true" ]})).
    assert (Hrec : @service.buildRecords example.lib example.ascending
                     (main.serviceController cfg)
                     (ServiceObj (example.exampleService
                                    {[ service.annPublish := "true" ]}))
                   = [])
      by (apply Hrule; discriminate).
    vm_compute in Hrec. discriminate Hrec. }
  assert (Hi : ~ @ingress_namespace_tested_first example.lib cfg).
  { intros Hrule.
    specialize (Hrule
      {| v1.Namespace := "default";
         v1.Spec_Rules := [ {| v1.Host := "app.local" |} ];
         v1.Status_LoadBalancer_Ingress := [] |}).
    assert (Hrec : @ingress.buildRecordsAt example.lib
                     (main.ingressController cfg)
                     (IngressObj
                        {| v1.Namespace := "default";
                           v1.Spec_Rules := [ {| v1.Host := "app.local" |} ];
                           v1.Status_LoadBalancer_Ingress := [] |})
                   = (ReturnNamespace, []))
      by (apply Hrule; discriminate).
    vm_compute in Hrec. discriminate Hrec. }
  split; [exact Hs|]. split; [exact Hi|].
  intros [_ Hboth]. by apply Hs.
Qed.

(** ** The order of the text strings *)

Section txt_order.
Context `{!GoLib}.

Lemma txtStep_fold (svc k : string) (l : list (string * string))
      (acc : gmap string (list string)) :
  default [] (fold_left (service.txtStep svc) l acc !! k)
  = default [] (acc !! k)
    ++ (if decide (k = svc)
        then (fun kv : string * string => kv.1 +:+ "=" +:+ kv.2) <$> l
        else []).
Proof.
  revert acc. induction l as [|kv l IH]; intros acc; simpl.
  - destruct (decide (k = svc)); by rewrite app_nil_r.
  - rewrite IH. unfold service.txtStep.
    destruct (decide (k = svc)) as [->|Hne].
    + rewrite lookup_insert_eq. simpl. by rewrite <- app_assoc.
    + by rewrite lookup_insert_ne.
Qed.

Lemma flatten_fold (rng : MapRange) (k : string)
      (entries : list (string * gmap string string))
      (acc : gmap string (list string)) :
  default []
    (fold_left
       (fun svctxt '(svc, txt) =>
          fold_left (service.txtStep svc) (range_inner rng svc txt) svctxt)
       entries acc !! k)
  = default [] (acc !! k) ++ (entries ≫= txtOfEntry rng k).
Proof.
  revert acc. induction entries as [|[svc txt] entries IH]; intros acc; simpl.
  - by rewrite app_nil_r.
  - rewrite IH, txtStep_fold. unfold txtOfEntry at 2. simpl.
    by rewrite <- app_assoc.
Qed.

Lemma flattenTxt_lookup (rng : MapRange) (k : string)
      (txtmap : gmap string (gmap string string)) :
  default [] (service.flattenTxt rng txtmap !! k)
  = range_outer rng txtmap ≫= txtOfEntry rng k.
Proof.
  unfold service.flattenTxt. by rewrite flatten_fold, lookup_empty.
Qed.

Lemma txtOfEntry_perm (rng1 rng2 : MapRange) (k : string)
      (entry : string * gmap string string) :
  txtOfEntry rng1 k entry ≡ₚ txtOfEntry rng2 k entry.
Proof.
  unfold txtOfEntry. destruct (decide (k = entry.1)); [|done].
  apply fmap_Permutation.
  by rewrite (range_inner_perm rng1), (range_inner_perm rng2).
Qed.

Lemma bind_perm_pointwise {A B} (f g : A -> list B) (l : list A) :
  (forall x, f x ≡ₚ g x) -> l ≫= f ≡ₚ l ≫= g.
Proof.
  intros Hfg. induction l as [|x l IH]; simpl; [done|].
  by apply Permutation_app.
Qed.

(** Whatever orders two runs choose, the strings that they collect for
    a port are the same up to their order. *)
Lemma flattenTxt_perm (rng1 rng2 : MapRange) (k : string)
      (txtmap : gmap string (gmap string string)) :
  default [] (service.flattenTxt rng1 txtmap !! k)
  ≡ₚ default [] (service.flattenTxt rng2 txtmap !! k).
Proof.
  rewrite !flattenTxt_lookup.
  etransitivity; [apply bind_perm_pointwise, (txtOfEntry_perm rng1 rng2)|].
  apply bind_Permutation.
  by rewrite (range_outer_perm rng1), (range_outer_perm rng2).
Qed.

Lemma svctxtOf_perm (rng1 rng2 : MapRange) (service : corev1.Service)
      (k : string) :
  default [] (service.svctxtOf rng1 service !! k)
  ≡ₚ default [] (service.svctxtOf rng2 service !! k).
Proof.
  unfold service.svctxtOf.
  destruct (negb (String.eqb _ "") && _); [|done].
  destruct (json_Unmarshal _) as [txtmap|]; [|done].
  apply flattenTxt_perm.
Qed.

Lemma sameUpToTxtOrder_refl (records : list dns.RR) :
  Forall2 sameUpToTxtOrder records records.
Proof.
  induction records as [|r records IH]; constructor; [|exact IH].
  by destruct r.
Qed.

Lemma buildSRVRecord_perm
      (instancename servicename protocol hostname : string) (port : Z)
      (txt1 txt2 : list string) :
  txt1 ≡ₚ txt2 ->
  Forall2 sameUpToTxtOrder
    (records.buildSRVRecord instancename servicename protocol hostname
       port txt1)
    (records.buildSRVRecord instancename servicename protocol hostname
       port txt2).
Proof.
  intros Hperm. unfold records.buildSRVRecord.
  destruct (_ || _); [constructor|].
  destruct (records.protoOf protocol) as [proto|]; [|constructor].
  rewrite <- (Permutation_length Hperm).
  repeat constructor.
  by destruct (length txt1 =? 0)%nat.
Qed.

Lemma portStep_perm (instancename hostname : string)
      (svctxt1 svctxt2 : gmap string (list string))
      (ports : list corev1.ServicePort) :
  (forall k, default [] (svctxt1 !! k) ≡ₚ default [] (svctxt2 !! k)) ->
  forall records1 records2,
    Forall2 sameUpToTxtOrder records1 records2 ->
    Forall2 sameUpToTxtOrder
      (fold_left (service.portStep instancename hostname svctxt1) ports
         records1)
      (fold_left (service.portStep instancename hostname svctxt2) ports
         records2).
Proof.
  intros Hperm. induction ports as [|port ports IH];
    intros records1 records2 Hrec; simpl; [exact Hrec|].
  apply IH. unfold service.portStep.
  apply Forall2_app; [exact Hrec|]. apply buildSRVRecord_perm, Hperm.
Qed.

End txt_order.

(** C9, as far as it holds.  Two runs of [buildRecords] on the same
    watcher and object leave through the same [return] and give lists of
    the same length whose records are equal one by one, except that the
    strings of a text record may come in a different order. *)
Theorem buildRecords_same_up_to_txt_order `{!GoLib}
        (rng1 rng2 : MapRange) (s : service.ServiceSource) (obj : Object) :
  fst (service.buildRecordsAt rng1 s obj)
  = fst (service.buildRecordsAt rng2 s obj)
  /\ length (service.buildRecords rng1 s obj)
     = length (service.buildRecords rng2 s obj)
  /\ Forall2 sameUpToTxtOrder (service.buildRecords rng1 s obj)
                              (service.buildRecords rng2 s obj).
Proof.
  assert (Hrec : fst (service.buildRecordsAt rng1 s obj)
                 = fst (service.buildRecordsAt rng2 s obj)
                 /\ Forall2 sameUpToTxtOrder
                      (service.buildRecords rng1 s obj)
                      (service.buildRecords rng2 s obj)).
  { unfold service.buildRecords, service.buildRecordsAt.
    destruct obj as [service| |]; try (split; [done | constructor]).
    destruct (negb (service.publishAll s) && _ && _ && _ && _);
      [split; [done | constructor]|].
    destruct (service.serviceIP service) as [ip|];
      [|split; [done | constructor]].
    split; [done|]. cbn [snd].
    apply portStep_perm; [apply svctxtOf_perm | apply sameUpToTxtOrder_refl]. }
  destruct Hrec as [Hret Hrec].
  split; [exact Hret|]. split; [|exact Hrec].
  by apply Forall2_length in Hrec.
Qed.

(** With two keys in the text object of a port, two runs that visit
    them in different orders return different text records. *)
Lemma buildRecords_order_differs :
  ~ @buildRecords_deterministic example.lib.
Proof.
  intros Hrule.
  specialize (Hrule example.ascending example.descending
    (service.NewServicesWatcher false)
    (ServiceObj (example.exampleService
       {[ service.annTxt := example.json "{'http': {'a': '1', 'b': '2'}}" ]}))).
  vm_compute in Hrule. discriminate Hrule.
Qed.

(** ** What the text records hold, and the examples of the specification *)

Section txt_content.
Context `{!GoLib}.

(** The strings collected for a port are the [key=value] pairs of the
    object that the annotation gives for that port, in some order. *)
Lemma flattenTxt_entries (rng : MapRange) (k : string)
      (txtmap : gmap string (gmap string string)) :
  default [] (service.flattenTxt rng txtmap !! k)
  ≡ₚ (fun kv : string * string => kv.1 +:+ "=" +:+ kv.2)
       <$> map_to_list (default ∅ (txtmap !! k)).
Proof.
  rewrite flattenTxt_lookup, (range_outer_perm rng txtmap).
  induction txtmap as [|svc txt txtmap Hfresh IH] using map_ind.
  - by rewrite map_to_list_empty, lookup_empty.
  - rewrite map_to_list_insert by done. simpl. rewrite IH.
    unfold txtOfEntry. simpl.
    destruct (decide (k = svc)) as [->|Hne].
    + rewrite lookup_insert_eq, Hfresh. simpl.
      rewrite map_to_list_empty, app_nil_r.
      apply fmap_Permutation, range_inner_perm.
    + by rewrite lookup_insert_ne.
Qed.

End txt_content.

Example service_with_publish_marker :
  @service.buildRecords example.lib example.ascending
    (service.NewServicesWatcher false)
    (ServiceObj (example.exampleService {[ service.annPublish := "true" ]}))
  = [ dns.A (dns.hdr "example.default.local." dns.TypeA) [192; 0; 2; 10]%N;
      dns.PTR (dns.hdr "10.2.0.192.in-addr.arpa." dns.TypePTR)
              "example.default.local.";
      dns.PTR (dns.hdr "_http._tcp.local." dns.TypePTR)
              "default/example._http._tcp.local.";
      dns.SRV (dns.hdr "default/example._http._tcp.local." dns.TypeSRV)
              0 0 80 "example.default.local.";
      dns.TXT (dns.hdr "default/example._http._tcp.local." dns.TypeTXT) [""] ].
Proof. reflexivity. Qed.

Example service_with_txt_annotation :
  @service.buildRecords example.lib example.ascending
    (service.NewServicesWatcher false)
    (ServiceObj (example.exampleService
       {[ service.annTxt := example.json "{'http': {'path': '/example'} }" ]}))
  = [ dns.A (dns.hdr "example.default.local." dns.TypeA) [192; 0; 2; 10]%N;
      dns.PTR (dns.hdr "10.2.0.192.in-addr.arpa." dns.TypePTR)
              "example.default.local.";
      dns.PTR (dns.hdr "_http._tcp.local." dns.TypePTR)
              "default/example._http._tcp.local.";
      dns.SRV (dns.hdr "default/example._http._tcp.local." dns.TypeSRV)
              0 0 80 "example.default.local.";
      dns.TXT (dns.hdr "default/example._http._tcp.local." dns.TypeTXT)
              ["path=/example"] ].
Proof. vm_compute. reflexivity. Qed.

Example ingress_local_and_foreign_host :
  @ingress.buildRecords example.lib (ingress.NewIngressWatcher "")
    (IngressObj
       {| v1.Namespace := "default";
          v1.Spec_Rules := [ {| v1.Host := "app.local" |};
                             {| v1.Host := "app.example.com" |} ];
          v1.Status_LoadBalancer_Ingress := [ {| corev1.IP := "192.0.2.10" |} ]
       |})
  = [ dns.A (dns.hdr "app.local." dns.TypeA) [192; 0; 2; 10]%N ].
Proof. reflexivity. Qed.

Example two_runs_two_orders :
  let annotated :=
    ServiceObj (example.exampleService
      {[ service.annTxt := example.json "{'http': {'a': '1', 'b': '2'}}" ]}) in
  last (@service.buildRecords example.lib example.ascending
          (service.NewServicesWatcher false) annotated)
  = Some (dns.TXT (dns.hdr "default/example._http._tcp.local." dns.TypeTXT)
                  ["a=1"; "b=2"])
  /\ last (@service.buildRecords example.lib example.descending
             (service.NewServicesWatcher false) annotated)
     = Some (dns.TXT (dns.hdr "default/example._http._tcp.local." dns.TypeTXT)
                     ["b=2"; "a=1"]).
Proof. split; vm_compute; reflexivity. Qed.

(* ================================================================== *)
(** * Further properties of the code                                  *)
(* ================================================================== *)

(** ** Hostnames *)

Section hostname_cases.

Lemma append_inj_r (a b s : string) : a +:+ s = b +:+ s -> a = b.
Proof.
  intros Heq.
  assert (Hlen : String.length a = String.length b).
  { apply (f_equal String.length) in Heq. rewrite !length_append in Heq. lia. }
  revert b Heq Hlen. induction a as [|c a IH]; intros [|d b] Heq Hlen;
    simpl in Hlen; try done.
  rewrite !append_cons in Heq. injection Heq as -> Heq.
  f_equal. apply IH; [done | lia].
Qed.

Lemma HasSuffix_dot_local (x : string) :
  strings.HasSuffix (x +:+ ".") ".local." = strings.HasSuffix x ".local".
Proof.
  destruct (strings.HasSuffix x ".local") eqn:Hx.
  - apply HasSuffix_spec in Hx as [p ->].
    rewrite append_assoc. apply (HasSuffix_append p ".local.").
  - destruct (strings.HasSuffix (x +:+ ".") ".local.") eqn:Hdot; [|done].
    apply HasSuffix_spec in Hdot as [p Hp].
    change ".local." with (".local" +:+ ".") in Hp.
    rewrite <- append_assoc in Hp. apply append_inj_r in Hp.
    assert (strings.HasSuffix x ".local" = true) as Hyes
      by (apply HasSuffix_spec; by exists p).
    congruence.
Qed.

End hostname_cases.

(** X1. What normalization does to a hostname, case by case: a name
    that ends in [.local.] is kept, a name that ends in [.local] gets
    the dot, any other name that ends in a dot gets [local.], and any
    other name gets [.local.].  The given name is never shortened and
    the result is never empty. *)
Theorem normalizeHostname_cases (x : string) :
  (strings.HasSuffix x ".local." = true -> service.normalizeHostname x = x)
  /\ (strings.HasSuffix x "." = false ->
      strings.HasSuffix x ".local" = true ->
      service.normalizeHostname x = x +:+ ".")
  /\ (strings.HasSuffix x "." = true ->
      strings.HasSuffix x ".local." = false ->
      service.normalizeHostname x = x +:+ "local.")
  /\ (strings.HasSuffix x "." = false ->
      strings.HasSuffix x ".local" = false ->
      service.normalizeHostname x = x +:+ ".local.")
  /\ (exists suffix, service.normalizeHostname x = x +:+ suffix)
  /\ service.normalizeHostname x <> "".
Proof.
  assert (Hcases :
    (strings.HasSuffix x ".local." = true -> service.normalizeHostname x = x)
    /\ (strings.HasSuffix x "." = false ->
        strings.HasSuffix x ".local" = true ->
        service.normalizeHostname x = x +:+ ".")
    /\ (strings.HasSuffix x "." = true ->
        strings.HasSuffix x ".local." = false ->
        service.normalizeHostname x = x +:+ "local.")
    /\ (strings.HasSuffix x "." = false ->
        strings.HasSuffix x ".local" = false ->
        service.normalizeHostname x = x +:+ ".local.")).
  { split; [apply normalizeHostname_fixed|].
    unfold service.normalizeHostname.
    split; [|split].
    - intros Hdot Hloc. rewrite Hdot. cbn [negb].
      by rewrite HasSuffix_dot_local, Hloc.
    - intros Hdot Hloc. rewrite Hdot. cbn [negb]. by rewrite Hloc.
    - intros Hdot Hloc. rewrite Hdot. cbn [negb].
      rewrite HasSuffix_dot_local, Hloc. cbn [negb].
      by rewrite append_assoc. }
  destruct Hcases as (H1 & H2 & H3 & H4).
  do 4 (split; [done|]).
  assert (Hprefix : exists suffix, service.normalizeHostname x = x +:+ suffix).
  { destruct (strings.HasSuffix x ".") eqn:Hdot.
    - destruct (strings.HasSuffix x ".local.") eqn:Hloc.
      + exists "". rewrite H1 by done.
        clear. induction x as [|c x IH]; [done|].
        rewrite append_cons. by f_equal.
      + exists "local.". by apply H3.
    - destruct (strings.HasSuffix x ".local") eqn:Hloc.
      + exists ".". by apply H2.
      + exists ".local.". by apply H4. }
  split; [exact Hprefix|].
  intros Hempty.
  pose proof (normalizeHostname_local x) as Hloc.
  rewrite Hempty in Hloc. discriminate Hloc.
Qed.

Lemma normalizeHostname_cases_witness :
  service.normalizeHostname "printer.local." = "printer.local."
  /\ service.normalizeHostname "printer.local" = "printer.local."
  /\ service.normalizeHostname "printer.lan." = "printer.lan.local."
  /\ service.normalizeHostname "printer" = "printer.local.".
Proof.
  split; [|split; [|split]].
  - apply (proj1 (normalizeHostname_cases "printer.local.")). reflexivity.
  - apply (proj1 (proj2 (normalizeHostname_cases "printer.local")));
      reflexivity.
  - apply (proj1 (proj2 (proj2 (normalizeHostname_cases "printer.lan."))));
      reflexivity.
  - apply (proj1 (proj2 (proj2 (proj2 (normalizeHostname_cases "printer")))));
      reflexivity.
Defined.

(** ** Invariants of the records that the watchers build *)

Section record_invariants.
Context `{!GoLib}.
Variable P : dns.RR -> Prop.
Variable Q : string -> Prop.
Hypothesis address_ok :
  forall name ip rev, Q name -> Forall P (records.buildARecord name ip rev).
Hypothesis bundle_ok :
  forall instancename servicename protocol hostname port txt,
    (0 <= port < 65536)%Z ->
    Forall P (records.buildSRVRecord instancename servicename protocol
                hostname port txt).
Hypothesis local_ok : forall p, Q (p +:+ ".local.").

Lemma ingress_records_Forall (i : ingress.IngressSource) (obj : Object) :
  Forall P (ingress.buildRecords i obj).
Proof.
  unfold ingress.buildRecords, ingress.buildRecordsAt.
  destruct obj as [|ingress|]; try constructor.
  destruct (loadBalancerIP _) as [ip|]; [|constructor].
  destruct (negb (String.eqb (ingress.namespace i) "") && _); [constructor|].
  cbn [snd]. generalize (@nil dns.RR) (List.Forall_nil P).
  induction (v1.Spec_Rules ingress) as [|rule rules IH];
    intros acc Hacc; simpl; [exact Hacc|].
  apply IH. unfold ingress.ruleStep.
  destruct (negb (String.eqb (v1.Host rule) "")) eqn:Hne; [|exact Hacc].
  destruct (strings.HasSuffix (v1.Host rule) ".local") eqn:Hloc;
    [|exact Hacc].
  cbn [andb]. apply Forall_app. split; [exact Hacc|].
  apply address_ok. apply HasSuffix_spec in Hloc as [p ->].
  rewrite append_assoc. apply (local_ok p).
Qed.

Lemma service_records_Forall (rng : MapRange) (s : service.ServiceSource)
      (obj : Object) :
  Forall P (service.buildRecords rng s obj).
Proof.
  unfold service.buildRecords, service.buildRecordsAt.
  destruct obj as [service| |]; try constructor.
  destruct (negb (service.publishAll s) && _ && _ && _ && _); [constructor|].
  destruct (service.serviceIP service) as [ip|]; [|constructor].
  cbn [snd]. rewrite portStep_fold. apply Forall_app. split.
  - apply address_ok.
    destruct (proj1 (HasSuffix_spec _ _)
                (normalizeHostname_local
                   (default (corev1.Name service +:+ "."
                             +:+ corev1.Namespace service +:+ ".local.")
                      (corev1.Annotations service !! service.annHostname))))
      as [p ->].
    apply local_ok.
  - apply Forall_flat_map, Forall_forall. intros port _.
    apply bundle_ok. unfold service.uint16.
    apply Z.mod_pos_bound. lia.
Qed.

Lemma service_ns_records_Forall (s : service_ns.ServiceSource)
      (obj : Object) :
  Forall P (service_ns.buildRecords s obj).
Proof.
  unfold service_ns.buildRecords, service_ns.buildRecordsAt.
  destruct obj as [service| |]; try constructor.
  destruct (service_ns.serviceIP s service) as [ip|]; [|constructor].
  destruct (negb (String.eqb (service_ns.namespace s) "") && _);
    [constructor|].
  cbn [snd].
  assert (Hfull : Forall P (records.buildARecord
                    (corev1.Name service +:+ "."
                     +:+ corev1.Namespace service +:+ ".local.") ip true)).
  { apply address_ok. rewrite <- !append_assoc. apply local_ok. }
  destruct (String.eqb _ _ || _); [|exact Hfull].
  apply Forall_app. split; [exact Hfull|].
  apply address_ok, local_ok.
Qed.

End record_invariants.

Section builder_invariants.
Context `{!GoLib}.

Lemma trailingDots_arpa (p : string) : trailingDots (p +:+ "arpa.") = 1.
Proof. unfold trailingDots, String.rev. by rewrite rev_app_append. Qed.

Lemma buildARecord_ownerDotted (name : string) (ip : net.IP) (rev : bool) :
  trailingDots name = 1 ->
  Forall ownerDotted (records.buildARecord name ip rev).
Proof.
  intros Hname. unfold records.buildARecord.
  assert (H4 : ownerDotted
                 (dns.PTR (dns.hdr (records.reverseIPv4 (net.To4 ip))
                                   dns.TypePTR) name)).
  { unfold ownerDotted, records.reverseIPv4. simpl.
    change ".in-addr.arpa." with (".in-addr." +:+ "arpa.").
    rewrite <- !append_assoc. apply trailingDots_arpa. }
  assert (H6 : ownerDotted
                 (dns.PTR (dns.hdr (records.reverseIPv6 (net.To16 ip))
                                   dns.TypePTR) name)).
  { unfold ownerDotted, records.reverseIPv6. simpl.
    change "ip6.arpa." with ("ip6." +:+ "arpa.").
    rewrite <- !append_assoc. apply trailingDots_arpa. }
  destruct (length (net.To4 ip) =? net.IPv4len)%nat, rev;
    repeat constructor; done.
Qed.

Lemma buildSRVRecord_ownerDotted
      (instancename servicename protocol hostname : string) (port : Z)
      (txt : list string) :
  Forall ownerDotted
    (records.buildSRVRecord instancename servicename protocol hostname
       port txt).
Proof.
  unfold records.buildSRVRecord.
  destruct (_ || _); [constructor|].
  destruct (records.protoOf protocol) as [proto|]; [|constructor].
  assert (Hgroup : trailingDots (records.dnsserviceOf servicename proto) = 1).
  { unfold records.dnsserviceOf. rewrite <- !append_assoc.
    apply trailingDots_local. }
  assert (Hinst : trailingDots
                    (records.dnsinstanceOf instancename
                       (records.dnsserviceOf servicename proto)) = 1).
  { unfold records.dnsinstanceOf, records.dnsserviceOf.
    rewrite <- !append_assoc. apply trailingDots_local. }
  repeat constructor; done.
Qed.

Lemma To4_length (ip : net.IP) :
  (length (net.To4 ip) =? net.IPv4len)%nat = true -> length (net.To4 ip) = 4.
Proof. intros H4. by apply Nat.eqb_eq in H4. Qed.

Lemma buildARecord_asBuilt (name : string) (ip : net.IP) (rev : bool) :
  Forall asBuilt (records.buildARecord name ip rev).
Proof.
  unfold records.buildARecord.
  destruct (length (net.To4 ip) =? net.IPv4len)%nat eqn:H4.
  - apply To4_length in H4. destruct rev; repeat constructor; done.
  - destruct rev; repeat constructor; done.
Qed.

Lemma buildSRVRecord_asBuilt
      (instancename servicename protocol hostname : string) (port : Z)
      (txt : list string) :
  (0 <= port < 65536)%Z ->
  Forall asBuilt
    (records.buildSRVRecord instancename servicename protocol hostname
       port txt).
Proof.
  intros Hport. unfold records.buildSRVRecord.
  destruct (String.eqb instancename "" || String.eqb servicename ""
            || String.eqb hostname "" || (port =? 0)%Z) eqn:Hguard;
    [constructor|].
  apply orb_false_iff in Hguard as [_ Hzero]. apply Z.eqb_neq in Hzero.
  destruct (records.protoOf protocol) as [proto|]; [|constructor].
  repeat constructor; try done; try lia.
  simpl. by destruct txt.
Qed.

End builder_invariants.

(** X2. Every record that a watcher builds, for any object, has an
    owner name that ends in exactly one dot. *)
Theorem records_owner_dotted `{!GoLib}
        (rng : MapRange) (i : ingress.IngressSource)
        (s : service.ServiceSource) (s' : service_ns.ServiceSource)
        (obj : Object) :
  Forall ownerDotted (ingress.buildRecords i obj)
  /\ Forall ownerDotted (service.buildRecords rng s obj)
  /\ Forall ownerDotted (service_ns.buildRecords s' obj).
Proof.
  split; [|split].
  - apply (ingress_records_Forall ownerDotted (fun n => trailingDots n = 1));
      [apply buildARecord_ownerDotted | apply trailingDots_local].
  - apply (service_records_Forall ownerDotted (fun n => trailingDots n = 1));
      [ apply buildARecord_ownerDotted
      | intros; apply buildSRVRecord_ownerDotted
      | apply trailingDots_local ].
  - apply (service_ns_records_Forall ownerDotted
             (fun n => trailingDots n = 1));
      [apply buildARecord_ownerDotted | apply trailingDots_local].
Qed.

(** X3. Every record that a watcher builds carries the type of its
    variant in the header and leaves class and TTL at zero; its A
    records hold four bytes, its SRV records have priority 0, weight 0
    and a port from 1 to 65535, its TXT records at least one string. *)
Theorem records_as_built `{!GoLib}
        (rng : MapRange) (i : ingress.IngressSource)
        (s : service.ServiceSource) (s' : service_ns.ServiceSource)
        (obj : Object) :
  Forall asBuilt (ingress.buildRecords i obj)
  /\ Forall asBuilt (service.buildRecords rng s obj)
  /\ Forall asBuilt (service_ns.buildRecords s' obj).
Proof.
  split; [|split].
  - apply (ingress_records_Forall asBuilt (fun _ => True));
      [intros; apply buildARecord_asBuilt | done].
  - apply (service_records_Forall asBuilt (fun _ => True));
      [ intros; apply buildARecord_asBuilt
      | intros; by apply buildSRVRecord_asBuilt
      | done ].
  - apply (service_ns_records_Forall asBuilt (fun _ => True));
      [intros; apply buildARecord_asBuilt | done].
Qed.

(** ** The record set of an Ingress and of a Service *)

Section record_sets.
Context `{!GoLib}.

Lemma buildARecord_shape (name : string) (ip : net.IP) :
  records.buildARecord name ip false = [forwardRecord name ip]
  /\ records.buildARecord name ip true
     = [forwardRecord name ip;
        dns.PTR (dns.hdr (reverseNameOf ip) dns.TypePTR) name].
Proof.
  unfold records.buildARecord, forwardRecord, reverseNameOf.
  by destruct (length (net.To4 ip) =? net.IPv4len)%nat.
Qed.

Lemma ruleStep_fold (ip : net.IP) (rules : list v1.IngressRule)
      (acc : list dns.RR) :
  fold_left (ingress.ruleStep ip) rules acc
  = acc ++ ((fun rule => forwardRecord (v1.Host rule +:+ ".") ip)
              <$> filter localHost rules).
Proof.
  revert acc. induction rules as [|rule rules IH]; intros acc; simpl.
  - by rewrite app_nil_r.
  - rewrite IH. unfold ingress.ruleStep.
    destruct (decide (localHost rule)) as [[Hne Hloc]|Hno].
    + rewrite filter_cons_True by done.
      apply String.eqb_neq in Hne. rewrite Hne, Hloc. cbn [negb andb].
      rewrite (proj1 (buildARecord_shape _ _)), <- app_assoc. done.
    + rewrite filter_cons_False by done.
      destruct (String.eqb_spec (v1.Host rule) "") as [Hempty|Hfull];
        cbn [negb andb]; [done|].
      destruct (strings.HasSuffix (v1.Host rule) ".local") eqn:Hloc; [|done].
      exfalso. apply Hno. by split.
Qed.

Lemma hostnameOf_nonempty (service : corev1.Service) :
  hostnameOf service <> "".
Proof.
  intros Hempty. unfold hostnameOf in Hempty.
  pose proof (normalizeHostname_local
                (default (corev1.Name service +:+ "."
                          +:+ corev1.Namespace service +:+ ".local.")
                   (corev1.Annotations service !! service.annHostname)))
    as Hloc.
  rewrite Hempty in Hloc. discriminate Hloc.
Qed.

Lemma protoOf_known (protocol : string) :
  (protocol = "TCP" \/ protocol = "UDP") <->
  is_Some (records.protoOf protocol).
Proof.
  unfold records.protoOf, records.ProtocolTCP, records.ProtocolUDP.
  destruct (String.eqb_spec protocol "TCP") as [->|Htcp];
    [split; [by eexists | by left]|].
  destruct (String.eqb_spec protocol "UDP") as [->|Hudp];
    [split; [by eexists | by right]|].
  split; [by intros [?|?] | by intros [? ?]].
Qed.

(** The three ways in which a port loses its bundle. *)
Lemma unbundled_port (instancename hostname : string)
      (port : corev1.ServicePort) (txt : list string) :
  ~ bundledPort port ->
  records.buildSRVRecord instancename (corev1.PortName port)
    (corev1.Protocol port) hostname (service.uint16 (corev1.Port port)) txt
  = [].
Proof.
  intros Hno. unfold records.buildSRVRecord.
  destruct (_ || _) eqn:Hguard; [done|].
  apply orb_false_iff in Hguard as [Hguard Hport].
  apply orb_false_iff in Hguard as [Hguard _].
  apply orb_false_iff in Hguard as [_ Hname].
  apply String.eqb_neq in Hname. apply Z.eqb_neq in Hport.
  destruct (records.protoOf (corev1.Protocol port)) as [proto|] eqn:Hproto;
    [|done].
  exfalso. apply Hno. repeat split; try done.
  apply protoOf_known. by rewrite Hproto.
Qed.

Lemma bundled_port (instancename hostname : string)
      (port : corev1.ServicePort) (txt : list string) :
  instancename <> "" -> hostname <> "" -> bundledPort port ->
  length (records.buildSRVRecord instancename (corev1.PortName port)
            (corev1.Protocol port) hostname
            (service.uint16 (corev1.Port port)) txt) = 3.
Proof.
  intros Hinst Hhost (Hname & Hport & Hproto). unfold records.buildSRVRecord.
  apply String.eqb_neq in Hinst, Hhost, Hname. apply Z.eqb_neq in Hport.
  rewrite Hinst, Hhost, Hname, Hport. cbn [orb].
  apply protoOf_known in Hproto as [proto ->]. done.
Qed.

Lemma bundles_length (instancename hostname : string)
      (svctxt : gmap string (list string))
      (ports : list corev1.ServicePort) :
  instancename <> "" -> hostname <> "" ->
  length (flat_map
            (fun port =>
               records.buildSRVRecord instancename (corev1.PortName port)
                 (corev1.Protocol port) hostname
                 (service.uint16 (corev1.Port port))
                 (default [] (svctxt !! corev1.PortName port)))
            ports)
  = 3 * length (filter bundledPort ports).
Proof.
  intros Hinst Hhost. induction ports as [|port ports IH]; simpl; [done|].
  rewrite length_app, IH.
  destruct (decide (bundledPort port)) as [Hyes|Hno].
  - rewrite filter_cons_True by done.
    rewrite bundled_port by done. simpl. lia.
  - rewrite filter_cons_False by done.
    by rewrite unbundled_port.
Qed.

Lemma bundles_for_host (instancename hostname : string)
      (svctxt : gmap string (list string))
      (ports : list corev1.ServicePort) :
  Forall (bundleRecordFor hostname)
    (flat_map
       (fun port =>
          records.buildSRVRecord instancename (corev1.PortName port)
            (corev1.Protocol port) hostname
            (service.uint16 (corev1.Port port))
            (default [] (svctxt !! corev1.PortName port)))
       ports).
Proof.
  apply Forall_flat_map, Forall_forall. intros port _.
  unfold records.buildSRVRecord.
  destruct (_ || _); [constructor|].
  destruct (records.protoOf _); repeat constructor.
Qed.

Lemma bundles_without_instance (hostname : string)
      (svctxt : gmap string (list string))
      (ports : list corev1.ServicePort) :
  flat_map
    (fun port =>
       records.buildSRVRecord "" (corev1.PortName port)
         (corev1.Protocol port) hostname
         (service.uint16 (corev1.Port port))
         (default [] (svctxt !! corev1.PortName port)))
    ports = [].
Proof. induction ports as [|port ports IH]; simpl; [done | exact IH]. Qed.

(** [buildRecords] when it reaches its end. *)
Lemma service_records_at_end (rng : MapRange) (s : service.ServiceSource)
      (service : corev1.Service) :
  fst (service.buildRecordsAt rng s (ServiceObj service)) = ReturnRecords ->
  exists ip,
    service.serviceIP service = Some ip
    /\ service.buildRecords rng s (ServiceObj service)
       = records.buildARecord (hostnameOf service) ip true ++
         flat_map
           (fun port =>
              records.buildSRVRecord (instancenameOf service)
                (corev1.PortName port) (corev1.Protocol port)
                (hostnameOf service) (service.uint16 (corev1.Port port))
                (default [] (service.svctxtOf rng service
                             !! corev1.PortName port)))
           (corev1.Spec_Ports service).
Proof.
  unfold service.buildRecords, service.buildRecordsAt.
  destruct (negb (service.publishAll s) && _ && _ && _ && _); [done|].
  destruct (service.serviceIP service) as [ip|]; [|done].
  intros _. exists ip. split; [done|].
  cbn [snd]. by rewrite portStep_fold.
Qed.

End record_sets.

(** X4. An Ingress that has an address and passes the namespace test
    gets one forward record for each rule whose host is not empty and
    ends in [.local], in the order of the rules and named by the host
    with a dot added, and nothing else: no reverse pointer is built for
    an Ingress. *)
Theorem ingress_forward_records_only `{!GoLib}
        (i : ingress.IngressSource) (ingress : v1.Ingress) (ip : net.IP) :
  loadBalancerIP (v1.Status_LoadBalancer_Ingress ingress) = Some ip ->
  ingress.namespace i = "" \/ ingress.namespace i = v1.Namespace ingress ->
  ingress.buildRecords i (IngressObj ingress)
  = (fun rule => forwardRecord (v1.Host rule +:+ ".") ip)
      <$> filter localHost (v1.Spec_Rules ingress)
  /\ Forall (fun r => dns.isAddress r = true)
            (ingress.buildRecords i (IngressObj ingress)).
Proof.
  intros Hip Hns.
  assert (Hrec : ingress.buildRecords i (IngressObj ingress)
                 = (fun rule => forwardRecord (v1.Host rule +:+ ".") ip)
                     <$> filter localHost (v1.Spec_Rules ingress)).
  { unfold ingress.buildRecords, ingress.buildRecordsAt. rewrite Hip.
    assert (negb (String.eqb (ingress.namespace i) "")
            && negb (String.eqb (ingress.namespace i)
                       (v1.Namespace ingress)) = false) as ->.
    { destruct Hns as [->| ->]; [done|].
      rewrite String.eqb_refl. cbn [negb]. apply andb_false_r. }
    cbn [snd]. by rewrite ruleStep_fold. }
  split; [exact Hrec|].
  rewrite Hrec. apply Forall_fmap, Forall_forall. intros rule _.
  unfold forwardRecord. simpl.
  by destruct (length (net.To4 ip) =? net.IPv4len)%nat.
Qed.

Lemma ingress_forward_records_only_witness :
  @ingress.buildRecords example.lib (ingress.NewIngressWatcher "default")
    (IngressObj
       {| v1.Namespace := "default";
          v1.Spec_Rules := [ {| v1.Host := "a.local" |};
                             {| v1.Host := "" |};
                             {| v1.Host := "b.example.com" |};
                             {| v1.Host := "c.local" |} ];
          v1.Status_LoadBalancer_Ingress := [ {| corev1.IP := "192.0.2.10" |} ]
       |})
  = [ dns.A (dns.hdr "a.local." dns.TypeA) [192; 0; 2; 10]%N;
      dns.A (dns.hdr "c.local." dns.TypeA) [192; 0; 2; 10]%N ].
Proof.
  rewrite (proj1 (@ingress_forward_records_only example.lib
                    (ingress.NewIngressWatcher "default")
                    {| v1.Namespace := "default";
                       v1.Spec_Rules := [ {| v1.Host := "a.local" |};
                                          {| v1.Host := "" |};
                                          {| v1.Host := "b.example.com" |};
                                          {| v1.Host := "c.local" |} ];
                       v1.Status_LoadBalancer_Ingress :=
                         [ {| corev1.IP := "192.0.2.10" |} ] |}
                    (net.IPv4 192 0 2 10) eq_refl (or_intror eq_refl))).
  reflexivity.
Defined.

(** X5. When [ServiceSource.buildRecords] reaches its end, the result
    is the forward record of the normalized hostname, then the reverse
    pointer to that hostname, then the bundles.  The bundles hold no
    address record, every SRV record in them has the hostname as its
    target, and there are three records for every port that has a name,
    a port number that is not a multiple of 65536 and the protocol TCP
    or UDP. *)
Theorem service_record_set `{!GoLib}
        (rng : MapRange) (s : service.ServiceSource)
        (service : corev1.Service) :
  fst (service.buildRecordsAt rng s (ServiceObj service)) = ReturnRecords ->
  exists ip bundles,
    service.serviceIP service = Some ip
    /\ service.buildRecords rng s (ServiceObj service)
       = forwardRecord (hostnameOf service) ip
         :: dns.PTR (dns.hdr (reverseNameOf ip) dns.TypePTR)
                    (hostnameOf service)
         :: bundles
    /\ Forall (bundleRecordFor (hostnameOf service)) bundles
    /\ (instancenameOf service <> "" ->
        length bundles
        = 3 * length (filter bundledPort (corev1.Spec_Ports service))).
Proof.
  intros Hend.
  destruct (service_records_at_end rng s service Hend) as (ip & Hip & Hrec).
  exists ip. eexists. split; [exact Hip|].
  split; [|split].
  - rewrite Hrec, (proj2 (buildARecord_shape _ _)). reflexivity.
  - apply bundles_for_host.
  - intros Hinst. apply bundles_length; [done | apply hostnameOf_nonempty].
Qed.

Lemma service_record_set_witness :
  exists ip bundles,
    @service.serviceIP example.lib
      (example.exampleService {[ service.annPublish := "true" ]}) = Some ip
    /\ @service.buildRecords example.lib example.ascending
         (service.NewServicesWatcher false)
         (ServiceObj (example.exampleService {[ service.annPublish := "true" ]}))
       = forwardRecord
           (hostnameOf (example.exampleService
                          {[ service.annPublish := "true" ]})) ip
         :: dns.PTR (dns.hdr (reverseNameOf ip) dns.TypePTR)
              (hostnameOf (example.exampleService
                             {[ service.annPublish := "true" ]}))
         :: bundles
    /\ length bundles = 3.
Proof.
  assert (Hend : fst (@service.buildRecordsAt example.lib example.ascending
                        (service.NewServicesWatcher false)
                        (ServiceObj (example.exampleService
                                       {[ service.annPublish := "true" ]})))
                 = ReturnRecords)
    by (vm_compute; reflexivity).
  destruct (@service_record_set example.lib example.ascending
              (service.NewServicesWatcher false)
              (example.exampleService {[ service.annPublish := "true" ]})
              Hend)
    as (ip & bundles & Hip & Hrec & _ & Hlen).
  exists ip, bundles. split; [exact Hip|]. split; [exact Hrec|].
  rewrite Hlen by (vm_compute; discriminate). reflexivity.
Defined.

(** X6. A port without a name, with a port number that is a multiple of
    65536, or with a protocol other than TCP and UDP can be taken out of
    the Service without any change to the records: it adds nothing and
    the bundles of the other ports stay as they are. *)
Theorem unbundled_port_changes_nothing `{!GoLib}
        (rng : MapRange) (s : service.ServiceSource)
        (service : corev1.Service)
        (before after : list corev1.ServicePort) (port : corev1.ServicePort) :
  corev1.Spec_Ports service = before ++ port :: after ->
  ~ bundledPort port ->
  service.buildRecords rng s (ServiceObj service)
  = service.buildRecords rng s
      (ServiceObj (withPorts service (before ++ after))).
Proof.
  intros Hports Hno.
  unfold service.buildRecords, service.buildRecordsAt.
  change (corev1.Annotations (withPorts service (before ++ after)))
    with (corev1.Annotations service).
  change (service.serviceIP (withPorts service (before ++ after)))
    with (service.serviceIP service).
  change (service.svctxtOf rng (withPorts service (before ++ after)))
    with (service.svctxtOf rng service).
  destruct (negb (service.publishAll s) && _ && _ && _ && _); [done|].
  destruct (service.serviceIP service) as [ip|]; [|done].
  cbn [snd]. rewrite !portStep_fold, Hports. f_equal.
  cbn [withPorts corev1.Spec_Ports].
  rewrite !flat_map_app. f_equal. simpl.
  by rewrite unbundled_port.
Qed.

Lemma unbundled_port_changes_nothing_witness :
  let unnamed : corev1.ServicePort :=
    {| corev1.PortName := ""; corev1.Protocol := "TCP"; corev1.Port := 8080 |} in
  let http : corev1.ServicePort :=
    {| corev1.PortName := "http"; corev1.Protocol := "TCP";
       corev1.Port := 80 |} in
  @service.buildRecords example.lib example.ascending
    (service.NewServicesWatcher true)
    (ServiceObj (withPorts (example.exampleService ∅) [unnamed; http]))
  = @service.buildRecords example.lib example.ascending
      (service.NewServicesWatcher true)
      (ServiceObj (example.exampleService ∅)).
Proof.
  intros unnamed http.
  rewrite (@unbundled_port_changes_nothing example.lib example.ascending
             (service.NewServicesWatcher true)
             (withPorts (example.exampleService ∅) [unnamed; http])
             [] [http] unnamed eq_refl);
    [reflexivity|].
  intros (Hname & _). by apply Hname.
Defined.

(** X7. A service-instance annotation with the empty string as its
    value makes the Service publishable and takes all its bundles away:
    the result is the forward record and the reverse pointer alone, or
    nothing when there is no address. *)
Theorem empty_instance_annotation `{!GoLib}
        (rng : MapRange) (s : service.ServiceSource)
        (service : corev1.Service) :
  corev1.Annotations service !! service.annInstance = Some "" ->
  service.buildRecords rng s (ServiceObj service)
  = match service.serviceIP service with
    | Some ip =>
        [ forwardRecord (hostnameOf service) ip;
          dns.PTR (dns.hdr (reverseNameOf ip) dns.TypePTR)
                  (hostnameOf service) ]
    | None => []
    end.
Proof.
  intros Hann.
  unfold service.buildRecords, service.buildRecordsAt.
  rewrite Hann. cbn [default].
  rewrite (bool_decide_eq_true_2 (is_Some (Some ""))) by (by eexists).
  cbn [negb andb]. rewrite !andb_false_r. cbn [andb].
  destruct (service.serviceIP service) as [ip|]; [|done].
  cbn [snd]. rewrite portStep_fold, bundles_without_instance, app_nil_r.
  apply (proj2 (buildARecord_shape _ _)).
Qed.

Lemma empty_instance_annotation_witness :
  @service.buildRecords example.lib example.ascending
    (service.NewServicesWatcher false)
    (ServiceObj (example.exampleService {[ service.annInstance := "" ]}))
  = [ dns.A (dns.hdr "example.default.local." dns.TypeA) [192; 0; 2; 10]%N;
      dns.PTR (dns.hdr "10.2.0.192.in-addr.arpa." dns.TypePTR)
              "example.default.local." ].
Proof.
  rewrite (@empty_instance_annotation example.lib example.ascending
             (service.NewServicesWatcher false)
             (example.exampleService {[ service.annInstance := "" ]}));
    reflexivity.
Defined.

(** ** Which address a Service gets *)

(** X8. The loop over the load-balancer entries lets the last entry
    with a non-empty IP decide alone: entries after it with an empty IP
    are passed over, and when its text is no IP address the result is
    nil whatever the entries before it hold. *)
Theorem last_entry_decides `{!GoLib}
        (before after : list corev1.LoadBalancerIngress)
        (lb : corev1.LoadBalancerIngress) :
  corev1.IP lb <> "" ->
  Forall (fun lb' => corev1.IP lb' = "") after ->
  loadBalancerIP (before ++ lb :: after) = net_ParseIP (corev1.IP lb).
Proof.
  intros Hfull Hafter. unfold loadBalancerIP.
  rewrite fold_left_app. simpl.
  assert (lbStep (fold_left lbStep before None) lb
          = net_ParseIP (corev1.IP lb)) as ->.
  { unfold lbStep. apply String.eqb_neq in Hfull. by rewrite Hfull. }
  generalize (net_ParseIP (corev1.IP lb)).
  induction Hafter as [|lb' after Hempty _ IH]; intros ip; simpl; [done|].
  rewrite IH. unfold lbStep. by rewrite Hempty.
Qed.

Lemma last_entry_decides_witness :
  @loadBalancerIP example.lib
    [ {| corev1.IP := "192.0.2.10" |}; {| corev1.IP := "pending" |};
      {| corev1.IP := "" |} ]
  = None.
Proof.
  etransitivity;
    [ apply (@last_entry_decides example.lib
               [ {| corev1.IP := "192.0.2.10" |} ]
               [ {| corev1.IP := "" |} ] {| corev1.IP := "pending" |});
        [discriminate | by repeat constructor]
    | reflexivity ].
Defined.

(** X9. A Service whose type is neither ClusterIP nor LoadBalancer, and
    a LoadBalancer Service none of whose entries has an IP, gets no
    record from either Service watcher. *)
Theorem service_without_address `{!GoLib}
        (rng : MapRange) (s : service.ServiceSource)
        (s' : service_ns.ServiceSource) (service : corev1.Service) :
  (corev1.Spec_Type service <> "ClusterIP"
   /\ corev1.Spec_Type service <> "LoadBalancer")
  \/ (corev1.Spec_Type service = "LoadBalancer"
      /\ Forall (fun lb => corev1.IP lb = "")
                (corev1.Status_LoadBalancer_Ingress service)) ->
  service.buildRecords rng s (ServiceObj service) = []
  /\ service_ns.buildRecords s' (ServiceObj service) = [].
Proof.
  intros Hcase.
  assert (Hempty : forall l, Forall (fun lb => corev1.IP lb = "") l ->
                             loadBalancerIP l = None).
  { intros l Hl. unfold loadBalancerIP.
    assert (forall ip, fold_left lbStep l ip = ip) as Hfold.
    { induction Hl as [|lb l Hlb _ IH]; intros ip; simpl; [done|].
      rewrite IH. unfold lbStep. by rewrite Hlb. }
    apply Hfold. }
  assert (Hip : service.serviceIP service = None
                /\ service_ns.serviceIP s' service = None).
  { unfold service.serviceIP, service_ns.serviceIP.
    destruct Hcase as [[Hc Hl]|[Hl Hall]].
    - apply String.eqb_neq in Hc, Hl. by rewrite Hc, Hl.
    - rewrite Hl. cbn [String.eqb Ascii.eqb Bool.eqb andb].
      by rewrite (Hempty _ Hall). }
  destruct Hip as [Hip Hip']. split.
  - pose proof (addresses_service rng s service) as Hrec.
    by rewrite Hip in Hrec.
  - pose proof (addresses_service_ns s' service) as Hrec.
    by rewrite Hip' in Hrec.
Qed.

Lemma service_without_address_witness :
  let nodePort : corev1.Service :=
    {| corev1.Name := "web"; corev1.Namespace := "default";
       corev1.Annotations := {[ service.annPublish := "true" ]};
       corev1.Spec_Type := "NodePort";
       corev1.Spec_ClusterIP := "10.0.0.9";
       corev1.Spec_Ports := [];
       corev1.Status_LoadBalancer_Ingress := [ {| corev1.IP := "192.0.2.10" |} ]
    |} in
  @service.buildRecords example.lib example.ascending
    (service.NewServicesWatcher true) (ServiceObj nodePort) = [].
Proof.
  intros nodePort.
  apply (@service_without_address example.lib example.ascending
           (service.NewServicesWatcher true)
           {| service_ns.defaultNamespace := "default";
              service_ns.withoutNamespace := false;
              service_ns.namespace := "";
              service_ns.publishInternal := true |} nodePort).
  left. split; discriminate.
Defined.

(** X10. With both the hostname and the service-instance annotation
    present, the name and the namespace of the Service do not reach the
    records: the same Service under any other name and namespace gets
    the same records. *)
Theorem overrides_hide_name_and_namespace `{!GoLib}
        (rng : MapRange) (s : service.ServiceSource)
        (service : corev1.Service) (name namespace : string) :
  is_Some (corev1.Annotations service !! service.annHostname) ->
  is_Some (corev1.Annotations service !! service.annInstance) ->
  service.buildRecords rng s (ServiceObj (renamed service name namespace))
  = service.buildRecords rng s (ServiceObj service).
Proof.
  intros [hostname Hh] [instancename Hi].
  unfold service.buildRecords, service.buildRecordsAt.
  change (corev1.Annotations (renamed service name namespace))
    with (corev1.Annotations service).
  change (service.serviceIP (renamed service name namespace))
    with (service.serviceIP service).
  change (service.svctxtOf rng (renamed service name namespace))
    with (service.svctxtOf rng service).
  change (corev1.Spec_Ports (renamed service name namespace))
    with (corev1.Spec_Ports service).
  by rewrite Hh, Hi.
Qed.

Lemma overrides_hide_name_and_namespace_witness :
  let annotations : gmap string string :=
    {[ service.annHostname := "printer"; service.annInstance := "Printer" ]} in
  @service.buildRecords example.lib example.ascending
    (service.NewServicesWatcher false)
    (ServiceObj (renamed (example.exampleService annotations) "other" "prod"))
  = @service.buildRecords example.lib example.ascending
      (service.NewServicesWatcher false)
      (ServiceObj (example.exampleService annotations)).
Proof.
  intros annotations.
  apply (@overrides_hide_name_and_namespace example.lib example.ascending
           (service.NewServicesWatcher false)
           (example.exampleService annotations) "other" "prod");
    vm_compute; by eexists.
Defined.

(** ** The address builder on unusual slices *)

(** X11. The builder treats the 16-byte IPv4-mapped form of an address
    and its 4-byte form alike: both give the same records. *)
Theorem buildARecord_mapped_form (name : string) (a b c d : N) (rev : bool) :
  records.buildARecord name (net.IPv4 a b c d) rev
  = records.buildARecord name [a; b; c; d] rev.
Proof. reflexivity. Qed.

(** X12. The builder does not check the length of the slice: for a
    slice that has neither 4 nor 16 bytes, nil included, it returns an
    AAAA record without address and a pointer record named
    [ip6.arpa.]. *)
Theorem buildARecord_other_lengths (name : string) (addr : net.IP) :
  length addr <> 4 -> length addr <> 16 ->
  records.buildARecord name addr true
  = [ dns.AAAA (dns.hdr name dns.TypeAAAA) [];
      dns.PTR (dns.hdr "ip6.arpa." dns.TypePTR) name ].
Proof.
  intros H4 H16. unfold records.buildARecord, net.To4, net.To16.
  apply Nat.eqb_neq in H4, H16. unfold net.IPv4len, net.IPv6len.
  rewrite H4, H16. reflexivity.
Qed.

Lemma buildARecord_other_lengths_witness :
  records.buildARecord "x.local." [] true
  = [ dns.AAAA (dns.hdr "x.local." dns.TypeAAAA) [];
      dns.PTR (dns.hdr "ip6.arpa." dns.TypePTR) "x.local." ].
Proof.
  apply (buildARecord_other_lengths "x.local." []); discriminate.
Defined.

(** ** The dispatch loop *)

Section dispatch_facts.
Context `{!GoLib}.

Lemma stamp_stamped (cfg : main.Config) (r : dns.RR) :
  stamped cfg (main.stamp cfg r).
Proof.
  unfold stamped, main.stamp, main.uint32.
  destruct r; simpl; (split; [done|]); (split; [done|]);
    apply Z.mod_pos_bound; lia.
Qed.

Lemma stamp_payload (cfg : main.Config) (r : dns.RR) :
  dns.Name (dns.Header (main.stamp cfg r)) = dns.Name (dns.Header r)
  /\ dns.Rrtype (dns.Header (main.stamp cfg r)) = dns.Rrtype (dns.Header r)
  /\ dns.withHeader (fun _ => dns.Header r) (main.stamp cfg r) = r.
Proof. by destruct r. Qed.

Lemma stamp_sameUpToTxtOrder (cfg : main.Config) (r1 r2 : dns.RR) :
  sameUpToTxtOrder r1 r2 ->
  sameUpToTxtOrder (main.stamp cfg r1) (main.stamp cfg r2).
Proof.
  destruct r1, r2; simpl; try done; try (by intros [= -> ->]);
    try (by intros [= -> -> -> -> ->]).
  by intros [-> Hperm].
Qed.

Lemma recordOf_advertise (cfg : main.Config) (res : resource.Resource) :
  recordOf <$> main.advertise cfg res
  = main.stamp cfg <$> resource.Records res.
Proof.
  unfold main.advertise. generalize (resource.Records res). intros l.
  induction l as [|r l IH]; [done|].
  cbn [map fmap list_fmap]. f_equal; [|exact IH].
  by destruct (resource.Action res).
Qed.

(** Two runs of the annotation-driven [buildRecords] agree up to the
    order of the text strings. *)
Lemma service_records_perm (rng1 rng2 : MapRange) (s : service.ServiceSource)
      (obj : Object) :
  Forall2 sameUpToTxtOrder (service.buildRecords rng1 s obj)
                           (service.buildRecords rng2 s obj).
Proof.
  unfold service.buildRecords, service.buildRecordsAt.
  destruct obj as [service| |]; try constructor.
  destruct (negb (service.publishAll s) && _ && _ && _ && _); [constructor|].
  destruct (service.serviceIP service) as [ip|]; [|constructor].
  cbn [snd].
  apply portStep_perm; [apply svctxtOf_perm | apply sameUpToTxtOrder_refl].
Qed.

Lemma add_then_delete (cfg : main.Config) (ty : string)
      (added deleted : list dns.RR) :
  main.dispatch cfg
    (resource.send
       {| resource.SourceType := ty; resource.Action := resource.Deleted;
          resource.Records := deleted |}
       (resource.send
          {| resource.SourceType := ty; resource.Action := resource.Added;
             resource.Records := added |} []))
  = ((fun r => main.Publish (main.stamp cfg r)) <$> added)
    ++ ((fun r => main.UnPublish (main.stamp cfg r)) <$> deleted).
Proof.
  unfold main.dispatch, main.advertise, resource.send. simpl.
  by rewrite app_nil_r.
Qed.

(** Every [return] before the end hands back the empty list. *)
Lemma early_return_empty (rng : MapRange) (i : ingress.IngressSource)
      (s : service.ServiceSource) (s' : service_ns.ServiceSource)
      (obj : Object) :
  (fst (ingress.buildRecordsAt i obj) <> ReturnRecords ->
   ingress.buildRecords i obj = [])
  /\ (fst (service.buildRecordsAt rng s obj) <> ReturnRecords ->
      service.buildRecords rng s obj = [])
  /\ (fst (service_ns.buildRecordsAt s' obj) <> ReturnRecords ->
      service_ns.buildRecords s' obj = []).
Proof.
  split; [|split].
  - unfold ingress.buildRecords, ingress.buildRecordsAt.
    destruct obj as [|ingress|]; try done.
    destruct (loadBalancerIP _); [|done].
    by destruct (negb (String.eqb (ingress.namespace i) "") && _).
  - unfold service.buildRecords, service.buildRecordsAt.
    destruct obj as [service| |]; try done.
    destruct (negb (service.publishAll s) && _ && _ && _ && _); [done|].
    by destruct (service.serviceIP service).
  - unfold service_ns.buildRecords, service_ns.buildRecordsAt.
    destruct obj as [service| |]; try done.
    destruct (service_ns.serviceIP s' service); [|done].
    by destruct (negb (String.eqb (service_ns.namespace s') "") && _).
Qed.

Lemma dispatch_send_empty (cfg : main.Config) (ty : string)
      (action : resource.action) (ch : resource.Chan) :
  main.dispatch cfg
    (resource.send {| resource.SourceType := ty; resource.Action := action;
                      resource.Records := [] |} ch)
  = main.dispatch cfg ch.
Proof.
  unfold resource.send. rewrite dispatch_app.
  unfold main.dispatch at 2. simpl. by rewrite app_nil_r.
Qed.

End dispatch_facts.

(** X13. Every record that the dispatch loop hands to the publisher has
    class INET and the configured TTL reduced modulo 2^32, which is the
    configured TTL itself when that lies between 0 and 2^32 - 1.  The
    loop hands over the records of the events one by one in the order
    in which they were sent, and apart from class and TTL it leaves a
    record as it was built. *)
Theorem dispatch_stamps_every_record (cfg : main.Config)
        (notifyMdns : resource.Chan) :
  Forall (fun c => stamped cfg (recordOf c)) (main.dispatch cfg notifyMdns)
  /\ recordOf <$> main.dispatch cfg notifyMdns
     = main.stamp cfg <$> (notifyMdns ≫= resource.Records)
  /\ (forall r,
        dns.Name (dns.Header (main.stamp cfg r)) = dns.Name (dns.Header r)
        /\ dns.Rrtype (dns.Header (main.stamp cfg r))
           = dns.Rrtype (dns.Header r)
        /\ dns.withHeader (fun _ => dns.Header r) (main.stamp cfg r) = r)
  /\ ((0 <= main.recordTTL cfg < 4294967296)%Z ->
      Forall (fun c => dns.Ttl (dns.Header (recordOf c)) = main.recordTTL cfg)
             (main.dispatch cfg notifyMdns)).
Proof.
  assert (Hrec : recordOf <$> main.dispatch cfg notifyMdns
                 = main.stamp cfg <$> (notifyMdns ≫= resource.Records)).
  { unfold main.dispatch.
    induction notifyMdns as [|res ch IH]; simpl; [done|].
    by rewrite !fmap_app, IH, recordOf_advertise. }
  assert (Hall : Forall (fun c => stamped cfg (recordOf c))
                        (main.dispatch cfg notifyMdns)).
  { apply (Forall_fmap recordOf (stamped cfg)). rewrite Hrec.
    apply Forall_fmap, Forall_forall. intros r _. apply stamp_stamped. }
  split; [exact Hall|]. split; [exact Hrec|].
  split; [apply stamp_payload|].
  intros Hrange. eapply Forall_impl; [exact Hall|].
  intros c (_ & Httl & _). rewrite Httl. by apply Z.mod_small.
Qed.

Lemma dispatch_stamps_every_record_witness :
  let cfg : main.Config :=
    {| main.namespace := ""; main.publishAll := false;
       main.recordTTL := 120 |} in
  Forall (fun c => dns.Ttl (dns.Header (recordOf c)) = 120%Z)
    (main.dispatch cfg
       (@ingress.onAdd example.lib (ingress.NewIngressWatcher "")
          (IngressObj
             {| v1.Namespace := "default";
                v1.Spec_Rules := [ {| v1.Host := "app.local" |} ];
                v1.Status_LoadBalancer_Ingress :=
                  [ {| corev1.IP := "192.0.2.10" |} ] |}) [])).
Proof.
  intros cfg.
  apply (proj2 (proj2 (proj2 (dispatch_stamps_every_record cfg _)))).
  simpl. lia.
Defined.

(** X14. A delete notification takes back what the add notification
    for the same object announced: the dispatch loop publishes the
    records of the object and then unpublishes the same records in the
    same order.  For the annotation-driven Service watcher, whose two
    runs may order the strings of a text record differently, the
    unpublished records match the published ones up to that order. *)
Theorem delete_retracts_add `{!GoLib}
        (cfg : main.Config) (i : ingress.IngressSource)
        (s : service.ServiceSource) (s' : service_ns.ServiceSource)
        (rngAdd rngDelete : MapRange) (obj : Object) :
  main.dispatch cfg (ingress.onDelete i obj (ingress.onAdd i obj []))
  = ((fun r => main.Publish (main.stamp cfg r)) <$> ingress.buildRecords i obj)
    ++ ((fun r => main.UnPublish (main.stamp cfg r))
          <$> ingress.buildRecords i obj)
  /\ main.dispatch cfg
       (service_ns.onDelete s' obj (service_ns.onAdd s' obj []))
     = ((fun r => main.Publish (main.stamp cfg r))
          <$> service_ns.buildRecords s' obj)
       ++ ((fun r => main.UnPublish (main.stamp cfg r))
             <$> service_ns.buildRecords s' obj)
  /\ exists published unpublished,
       main.dispatch cfg
         (service.onDelete rngDelete s obj (service.onAdd rngAdd s obj []))
       = published ++ unpublished
       /\ Forall2 retracts published unpublished.
Proof.
  split; [apply add_then_delete|]. split; [apply add_then_delete|].
  eexists _, _. split; [apply add_then_delete|].
  apply Forall2_fmap.
  eapply Forall2_impl; [apply (service_records_perm rngAdd rngDelete)|].
  intros r1 r2 Hsame. by apply stamp_sameUpToTxtOrder.
Qed.

(** X15. An object that a watcher drops (wrong type, no address,
    outside the namespace, not to be published) still makes the watcher
    send its event, with no records, and the dispatch loop calls the
    publisher for none of them: no [return] before the end of
    [buildRecords] hands back records built so far. *)
Theorem dropped_object_publishes_nothing `{!GoLib}
        (cfg : main.Config) (rng : MapRange) (i : ingress.IngressSource)
        (s : service.ServiceSource) (s' : service_ns.ServiceSource)
        (obj : Object) (notifyChan : resource.Chan) :
  (fst (ingress.buildRecordsAt i obj) <> ReturnRecords ->
   length (ingress.onAdd i obj notifyChan) = S (length notifyChan)
   /\ main.dispatch cfg (ingress.onAdd i obj notifyChan)
      = main.dispatch cfg notifyChan
   /\ main.dispatch cfg (ingress.onDelete i obj notifyChan)
      = main.dispatch cfg notifyChan)
  /\ (fst (service.buildRecordsAt rng s obj) <> ReturnRecords ->
      length (service.onAdd rng s obj notifyChan) = S (length notifyChan)
      /\ main.dispatch cfg (service.onAdd rng s obj notifyChan)
         = main.dispatch cfg notifyChan
      /\ main.dispatch cfg (service.onDelete rng s obj notifyChan)
         = main.dispatch cfg notifyChan)
  /\ (fst (service_ns.buildRecordsAt s' obj) <> ReturnRecords ->
      length (service_ns.onAdd s' obj notifyChan) = S (length notifyChan)
      /\ main.dispatch cfg (service_ns.onAdd s' obj notifyChan)
         = main.dispatch cfg notifyChan
      /\ main.dispatch cfg (service_ns.onDelete s' obj notifyChan)
         = main.dispatch cfg notifyChan).
Proof.
  destruct (early_return_empty rng i s s' obj) as (Hi & Hs & Hn).
  split; [|split]; intros Hearly.
  - unfold ingress.onAdd, ingress.onDelete. rewrite (Hi Hearly).
    rewrite !dispatch_send_empty. unfold resource.send.
    rewrite length_app. simpl. split; [lia | done].
  - unfold service.onAdd, service.onDelete. rewrite (Hs Hearly).
    rewrite !dispatch_send_empty. unfold resource.send.
    rewrite length_app. simpl. split; [lia | done].
  - unfold service_ns.onAdd, service_ns.onDelete. rewrite (Hn Hearly).
    rewrite !dispatch_send_empty. unfold resource.send.
    rewrite length_app. simpl. split; [lia | done].
Qed.

Lemma dropped_object_publishes_nothing_witness :
  main.dispatch
    {| main.namespace := ""; main.publishAll := false; main.recordTTL := 120 |}
    (@ingress.onAdd example.lib (ingress.NewIngressWatcher "")
       (ServiceObj (example.exampleService ∅)) [])
  = [].
Proof.
  apply (proj1 (@dropped_object_publishes_nothing example.lib
                  {| main.namespace := ""; main.publishAll := false;
                     main.recordTTL := 120 |}
                  example.ascending (ingress.NewIngressWatcher "")
                  (service.NewServicesWatcher false)
                  {| service_ns.defaultNamespace := "";
                     service_ns.withoutNamespace := false;
                     service_ns.namespace := "";
                     service_ns.publishInternal := false |}
                  (ServiceObj (example.exampleService ∅)) [])).
  discriminate.
Defined.

(** ** The text record of a port *)

Section txt_of_port.
Context `{!GoLib}.

Lemma svctxtOf_decoded (rng : MapRange) (service : corev1.Service)
      (txtstr : string) (txtmap : gmap string (gmap string string)) :
  corev1.Annotations service !! service.annTxt = Some txtstr ->
  txtstr <> "" ->
  json_Unmarshal txtstr = Some txtmap ->
  service.svctxtOf rng service = service.flattenTxt rng txtmap.
Proof.
  intros Hann Hfull Hdec. unfold service.svctxtOf. rewrite Hann. simpl.
  apply String.eqb_neq in Hfull. by rewrite Hfull, Hdec.
Qed.

Lemma txt_in_bundle (instancename hostname : string)
      (port : corev1.ServicePort) (txt : list string) :
  instancename <> "" -> hostname <> "" -> bundledPort port ->
  exists proto,
    records.protoOf (corev1.Protocol port) = Some proto
    /\ dns.TXT (dns.hdr (records.dnsinstanceOf instancename
                           (records.dnsserviceOf (corev1.PortName port) proto))
                        dns.TypeTXT)
               (match txt with [] => [""] | _ => txt end)
       ∈ records.buildSRVRecord instancename (corev1.PortName port)
           (corev1.Protocol port) hostname
           (service.uint16 (corev1.Port port)) txt.
Proof.
  intros Hinst Hhost (Hname & Hport & Hproto). unfold records.buildSRVRecord.
  apply String.eqb_neq in Hinst, Hhost, Hname. apply Z.eqb_neq in Hport.
  rewrite Hinst, Hhost, Hname, Hport. cbn [orb].
  apply protoOf_known in Hproto as [proto Hproto]. rewrite Hproto.
  exists proto. split; [done|].
  destruct txt; simpl; set_solver.
Qed.

End txt_of_port.




(** X16. When the service-txt annotation decodes, the text record of a
    port that gets a bundle holds the [key=value] strings of the object
    that the annotation gives under the name of the port, in some order;
    when the annotation has no object under that name, or an empty one,
    the text record holds the single empty string. *)
Theorem txt_record_of_port `{!GoLib}
        (rng : MapRange) (s : service.ServiceSource)
        (service : corev1.Service) (txtstr : string)
        (txtmap : gmap string (gmap string string))
        (port : corev1.ServicePort) :
  fst (service.buildRecordsAt rng s (ServiceObj service)) = ReturnRecords ->
  corev1.Annotations service !! service.annTxt = Some txtstr ->
  txtstr <> "" ->
  json_Unmarshal txtstr = Some txtmap ->
  instancenameOf service <> "" ->
  port ∈ corev1.Spec_Ports service ->
  bundledPort port ->
  exists proto txt,
    records.protoOf (corev1.Protocol port) = Some proto
    /\ dns.TXT (dns.hdr (instancenameOf service +:+ "._"
                         +:+ strings_ToLower (corev1.PortName port) +:+ "._"
                         +:+ proto +:+ ".local.") dns.TypeTXT) txt
       ∈ service.buildRecords rng s (ServiceObj service)
    /\ let pairs :=
         (fun kv : string * string => kv.1 +:+ "=" +:+ kv.2)
           <$> map_to_list (default ∅ (txtmap !! corev1.PortName port)) in
       (pairs = [] -> txt = [""]) /\ (pairs <> [] -> txt ≡ₚ pairs).
Proof.
  intros Hend Hann Hfull Hdec Hinst Hport Hbundled.
  destruct (service_records_at_end rng s service Hend) as (ip & _ & Hrec).
  destruct (txt_in_bundle (instancenameOf service) (hostnameOf service) port
              (default [] (service.svctxtOf rng service
                           !! corev1.PortName port))
              Hinst (hostnameOf_nonempty service) Hbundled)
    as (proto & Hproto & Hin).
  exists proto. eexists. split; [exact Hproto|]. split.
  - rewrite Hrec. apply elem_of_app. right.
    apply list_elem_of_In, in_flat_map. exists port.
    split; [by apply list_elem_of_In|].
    apply list_elem_of_In. exact Hin.
  - pose proof (flattenTxt_entries rng (corev1.PortName port) txtmap) as Hperm.
    rewrite <- (svctxtOf_decoded rng service txtstr txtmap Hann Hfull Hdec)
      in Hperm.
    simpl. split.
    + intros Hnone. rewrite Hnone in Hperm.
      apply Permutation_nil_r in Hperm. by rewrite Hperm.
    + intros Hsome.
      destruct (default [] (service.svctxtOf rng service
                            !! corev1.PortName port)) as [|str strs] eqn:Hstrs;
        [|exact Hperm].
      symmetry in Hperm. by apply Permutation_nil_r in Hperm.
Qed.

Lemma txt_record_of_port_witness :
  exists txt,
    dns.TXT (dns.hdr "default/example._http._tcp.local." dns.TypeTXT) txt
    ∈ @service.buildRecords example.lib example.descending
        (service.NewServicesWatcher false)
        (ServiceObj (example.exampleService
           {[ service.annTxt :=
                example.json "{'http': {'path': '/example', 'v': '2'}}" ]}))
    /\ txt ≡ₚ ["path=/example"; "v=2"].
Proof.
  assert (Hend : fst (@service.buildRecordsAt example.lib example.descending
                        (service.NewServicesWatcher false)
                        (ServiceObj (example.exampleService
                           {[ service.annTxt :=
                                example.json
                                  "{'http': {'path': '/example', 'v': '2'}}" ]})))
                 = ReturnRecords)
    by (vm_compute; reflexivity).
  assert (Hann : corev1.Annotations
                   (example.exampleService
                      {[ service.annTxt :=
                           example.json
                             "{'http': {'path': '/example', 'v': '2'}}" ]})
                 !! service.annTxt
                 = Some (example.json
                           "{'http': {'path': '/example', 'v': '2'}}"))
    by (vm_compute; reflexivity).
  destruct (@txt_record_of_port example.lib example.descending
              (service.NewServicesWatcher false) _ _
              {[ "http" := {[ "path" := "/example"; "v" := "2" ]} ]}
              {| corev1.PortName := "http"; corev1.Protocol := "TCP";
                 corev1.Port := 80 |}
              Hend Hann)
    as (proto & txt & Hproto & Hin & Hnone & Hsome).
  - vm_compute. discriminate.
  - vm_compute. reflexivity.
  - vm_compute. discriminate.
  - simpl. set_solver.
  - repeat split; [discriminate | vm_compute; discriminate | by left].
  - vm_compute in Hproto. injection Hproto as <-.
    exists txt. split; [exact Hin|].
    etransitivity; [apply Hsome; vm_compute; discriminate|].
    vm_compute. apply perm_swap.
Defined.

(** ** The [-source] flag and the start of the watchers *)

Section flags.



End flags.



(** ** The Service watcher with the short names *)

(** X18. When the watcher with a namespace setting reaches the end of
    [buildRecords], the result is the forward record of
    [<name>.<namespace>.local.] and the reverse pointer to that name,
    followed by a forward record of [<name>.local.] exactly when the
    Service is in the default namespace or short names are switched on
    for all; the short name never gets a reverse pointer. *)
Theorem service_ns_record_set `{!GoLib}
        (s : service_ns.ServiceSource) (service : corev1.Service) :
  fst (service_ns.buildRecordsAt s (ServiceObj service)) = ReturnRecords ->
  exists ip,
    service_ns.serviceIP s service = Some ip
    /\ service_ns.buildRecords s (ServiceObj service)
       = forwardRecord (corev1.Name service +:+ "."
                        +:+ corev1.Namespace service +:+ ".local.") ip
         :: dns.PTR (dns.hdr (reverseNameOf ip) dns.TypePTR)
              (corev1.Name service +:+ "." +:+ corev1.Namespace service
               +:+ ".local.")
         :: (if decide (corev1.Namespace service = service_ns.defaultNamespace s
                        \/ service_ns.withoutNamespace s = true)
             then [forwardRecord (corev1.Name service +:+ ".local.") ip]
             else []).
Proof.
  unfold service_ns.buildRecords, service_ns.buildRecordsAt.
  destruct (service_ns.serviceIP s service) as [ip|]; [|done].
  destruct (negb (String.eqb (service_ns.namespace s) "") && _); [done|].
  intros _. exists ip. split; [done|]. cbn [snd].
  rewrite (proj2 (buildARecord_shape _ ip)), (proj1 (buildARecord_shape _ ip)).
  destruct (String.eqb_spec (corev1.Namespace service)
              (service_ns.defaultNamespace s)) as [Hdef|Hother]; simpl.
  - by rewrite decide_True by (by left).
  - destruct (service_ns.withoutNamespace s) eqn:Hshort.
    + by rewrite decide_True by (by right).
    + by rewrite decide_False by (by intros [?|?]).
Qed.

Lemma service_ns_record_set_witness :
  @service_ns.buildRecords example.lib
    {| service_ns.defaultNamespace := "default";
       service_ns.withoutNamespace := false;
       service_ns.namespace := "";
       service_ns.publishInternal := false |}
    (ServiceObj (example.exampleService ∅))
  = [ dns.A (dns.hdr "example.default.local." dns.TypeA) [192; 0; 2; 10]%N;
      dns.PTR (dns.hdr "10.2.0.192.in-addr.arpa." dns.TypePTR)
              "example.default.local.";
      dns.A (dns.hdr "example.local." dns.TypeA) [192; 0; 2; 10]%N ].
Proof.
  destruct (@service_ns_record_set example.lib
              {| service_ns.defaultNamespace := "default";
                 service_ns.withoutNamespace := false;
                 service_ns.namespace := "";
                 service_ns.publishInternal := false |}
              (example.exampleService ∅) eq_refl) as (ip & Hip & Hrec).
  vm_compute in Hip. injection Hip as <-.
  rewrite Hrec. reflexivity.
Defined.

(** ** Reverse names determine the address *)

Section reverse_injective.

Lemma uint_dotFree (d : Decimal.uint) :
  dotFree (DecimalString.NilEmpty.string_of_uint d) = true.
Proof. induction d; simpl; auto. Qed.

Lemma fmt_d_dotFree (n : N) : dotFree (fmt.d n) = true.
Proof.
  unfold fmt.d, DecimalString.NilZero.string_of_uint.
  destruct (N.to_uint n); try apply uint_dotFree. reflexivity.
Qed.

Lemma to_uint_nonnil (n : N) : N.to_uint n <> Decimal.Nil.
Proof.
  destruct n as [|p]; [discriminate|].
  apply DecimalPos.Unsigned.to_uint_nonnil.
Qed.

Lemma fmt_d_inj (n m : N) : fmt.d n = fmt.d m -> n = m.
Proof.
  unfold fmt.d. intros Heq.
  apply DecimalN.Unsigned.to_uint_inj.
  apply (f_equal DecimalString.NilZero.uint_of_string) in Heq.
  rewrite !DecimalString.NilZero.usu in Heq by apply to_uint_nonnil.
  by injection Heq.
Qed.

(** Two texts split at their first dot in one way only. *)
Lemma split_at_dot (s1 s2 r1 r2 : string) :
  dotFree s1 = true -> dotFree s2 = true ->
  s1 +:+ "." +:+ r1 = s2 +:+ "." +:+ r2 -> s1 = s2 /\ r1 = r2.
Proof.
  revert s2. induction s1 as [|c s1 IH]; intros [|d s2] H1 H2 Heq.
  - by injection Heq.
  - rewrite append_cons in Heq. injection Heq as <- _.
    by vm_compute in H2.
  - rewrite append_cons in Heq. injection Heq as -> _.
    by vm_compute in H1.
  - rewrite !append_cons in Heq. injection Heq as -> Heq.
    simpl in H1, H2.
    apply andb_true_iff in H1 as [_ H1]. apply andb_true_iff in H2 as [_ H2].
    destruct (IH s2 H1 H2 Heq) as [-> ->]. done.
Qed.

Lemma reverseIPv4_inj (a b c d a' b' c' d' : N) :
  records.reverseIPv4 [a; b; c; d] = records.reverseIPv4 [a'; b'; c'; d'] ->
  [a; b; c; d] = [a'; b'; c'; d'].
Proof.
  unfold records.reverseIPv4. simpl. intros Heq.
  apply split_at_dot in Heq as [Hd Heq]; try apply fmt_d_dotFree.
  apply split_at_dot in Heq as [Hc Heq]; try apply fmt_d_dotFree.
  apply split_at_dot in Heq as [Hb Heq]; try apply fmt_d_dotFree.
  apply append_inj_r in Heq.
  by rewrite (fmt_d_inj _ _ Hd), (fmt_d_inj _ _ Hc), (fmt_d_inj _ _ Hb),
    (fmt_d_inj _ _ Heq).
Qed.

Lemma fmt_x_char (v : N) :
  (v < 16)%N -> exists c, fmt.x v = String c "" /\ c <> "i"%char.
Proof.
  intros Hv.
  assert (exists n, n < 16 /\ v = N.of_nat n) as (n & Hn & ->)
    by (exists (N.to_nat v); lia).
  do 16 (destruct n as [|n]; [eexists; split; [reflexivity | discriminate]|]).
  lia.
Qed.

Lemma fmt_x_inj (v w : N) :
  (v < 16)%N -> (w < 16)%N -> fmt.x v = fmt.x w -> v = w.
Proof.
  intros Hv Hw.
  assert (exists n, n < 16 /\ v = N.of_nat n) as (n & Hn & ->)
    by (exists (N.to_nat v); lia).
  assert (exists m, m < 16 /\ w = N.of_nat m) as (m & Hm & ->)
    by (exists (N.to_nat w); lia).
  clear Hv Hw.
  do 16 (destruct n as [|n];
         [do 16 (destruct m as [|m];
                 [vm_compute; first [reflexivity | discriminate]|]); lia|]).
  lia.
Qed.

(** A byte is made of its two nibbles. *)
Lemma byte_of_nibbles (b b' : N) :
  isByte b -> isByte b' ->
  N.land b 15 = N.land b' 15 ->
  N.shiftr (N.land b 240) 4 = N.shiftr (N.land b' 240) 4 ->
  b = b'.
Proof.
  unfold isByte. intros Hb Hb'.
  rewrite !N.shiftr_land. change (N.shiftr 240 4) with 15%N.
  change 15%N with (N.ones 4). rewrite !N.land_ones, !N.shiftr_div_pow2.
  change (2 ^ 4)%N with 16%N. intros Hlo Hhi.
  rewrite !N.mod_small in Hhi
    by (apply N.Div0.div_lt_upper_bound; lia).
  rewrite (N.div_mod b 16), (N.div_mod b' 16) by lia. lia.
Qed.

Lemma nibble_names_inj (l1 l2 : list N) :
  Forall isByte l1 -> Forall isByte l2 ->
  fold_left nibbles l1 "" +:+ "ip6.arpa."
  = fold_left nibbles l2 "" +:+ "ip6.arpa." ->
  l1 = l2.
Proof.
  rewrite !nibbles_labels, !append_nil_l.
  intros H1. revert l2.
  induction H1 as [|b1 l1 Hb1 _ IH]; intros l2 H2 Heq;
    destruct H2 as [|b2 l2 Hb2 H2]; simpl in Heq; try done.
  - destruct (fmt_x_char _ (low_nibble_lt b2)) as (c & Hc & Hi).
    rewrite Hc in Heq. injection Heq as Heq _. by symmetry in Heq.
  - destruct (fmt_x_char _ (low_nibble_lt b1)) as (c & Hc & Hi).
    rewrite Hc in Heq. by injection Heq as Heq _.
  - pose proof (fmt_x_char _ (low_nibble_lt b1)) as (c1 & Hc1 & _).
    pose proof (fmt_x_char _ (high_nibble_lt b1)) as (d1 & Hd1 & _).
    pose proof (fmt_x_char _ (low_nibble_lt b2)) as (c2 & Hc2 & _).
    pose proof (fmt_x_char _ (high_nibble_lt b2)) as (d2 & Hd2 & _).
    assert (Hlo : fmt.x (N.land b1 15) = fmt.x (N.land b2 15)
                  /\ fmt.x (N.shiftr (N.land b1 240) 4)
                     = fmt.x (N.shiftr (N.land b2 240) 4)
                  /\ fold_right (fun label rest => label +:+ "." +:+ rest)
                       "ip6.arpa."
                       (flat_map (fun b => [fmt.x (N.land b 15);
                                          fmt.x (N.shiftr (N.land b 240) 4)])
                                 l1)
                     = fold_right (fun label rest => label +:+ "." +:+ rest)
                         "ip6.arpa."
                         (flat_map (fun b => [fmt.x (N.land b 15);
                                            fmt.x (N.shiftr (N.land b 240) 4)])
                                   l2)).
    { rewrite Hc1, Hd1, Hc2, Hd2 in Heq |- *.
      injection Heq as -> -> Heq. done. }
    destruct Hlo as (Hlo & Hhi & Hrest).
    apply fmt_x_inj in Hlo; try apply low_nibble_lt.
    apply fmt_x_inj in Hhi; try apply high_nibble_lt.
    f_equal; [by apply byte_of_nibbles|].
    apply IH; [exact H2 | exact Hrest].
Qed.

Lemma reverseIPv6_inj (a1 a2 : net.IP) :
  Forall isByte a1 -> Forall isByte a2 ->
  records.reverseIPv6 a1 = records.reverseIPv6 a2 -> a1 = a2.
Proof.
  intros H1 H2. rewrite !reverseIPv6_labels.
  unfold ip6ArpaName, ip6Labels. intros Heq.
  apply rev_inj. apply nibble_names_inj; try (by apply List.Forall_rev).
  by rewrite !nibbles_labels, !append_nil_l.
Qed.

Lemma reverse_families_differ (a1 a2 : net.IP) :
  records.reverseIPv4 a1 <> records.reverseIPv6 a2.
Proof.
  unfold records.reverseIPv4, records.reverseIPv6. intros Heq.
  apply (f_equal String.rev) in Heq. revert Heq.
  change ".in-addr.arpa." with (".in-addr.arpa" +:+ ".").
  rewrite <- !append_assoc. unfold String.rev.
  rewrite !rev_app_append. simpl. discriminate.
Qed.

Lemma To4_properIP (ip : net.IP) :
  properIP ip -> Forall isByte (net.To4 ip) /\ Forall isByte (net.To16 ip).
Proof.
  intros [Hlen Hbytes]. unfold net.To4, net.To16. split.
  - destruct (length ip =? net.IPv4len)%nat; [done|].
    destruct (_ && _ && _ && _); [|constructor].
    by apply Forall_drop.
  - destruct (length ip =? net.IPv4len)%nat eqn:H4.
    + apply Nat.eqb_eq in H4.
      destruct ip as [|a [|b [|c [|d [|]]]]]; try done.
      repeat (apply Forall_cons in Hbytes as [? Hbytes]).
      unfold net.IPv4, isByte. simpl. repeat constructor; done.
    + by destruct (length ip =? net.IPv6len)%nat.
Qed.

End reverse_injective.

(** X19. The reverse name determines the address: two slices of 4 or
    16 bytes that get the same reverse name get the same bytes in their
    forward records.  In particular an IPv4 name and an IPv6 name never
    coincide. *)
Theorem reverse_name_determines_address (ip1 ip2 : net.IP) :
  properIP ip1 -> properIP ip2 ->
  reverseNameOf ip1 = reverseNameOf ip2 ->
  addressBytes ip1 = addressBytes ip2
  /\ forall name, records.buildARecord name ip1 true
                  = records.buildARecord name ip2 true.
Proof.
  intros Hp1 Hp2 Hname.
  assert (Hbytes : addressBytes ip1 = addressBytes ip2).
  { destruct (To4_properIP ip1 Hp1) as [H41 H61].
    destruct (To4_properIP ip2 Hp2) as [H42 H62].
    unfold reverseNameOf in Hname. unfold addressBytes.
    destruct (length (net.To4 ip1) =? net.IPv4len)%nat eqn:E1;
      destruct (length (net.To4 ip2) =? net.IPv4len)%nat eqn:E2.
    - apply Nat.eqb_eq in E1, E2.
      destruct (net.To4 ip1) as [|a [|b [|c [|d [|]]]]]; try done.
      destruct (net.To4 ip2) as [|a' [|b' [|c' [|d' [|]]]]]; try done.
      by apply reverseIPv4_inj.
    - by apply reverse_families_differ in Hname.
    - symmetry in Hname. by apply reverse_families_differ in Hname.
    - by apply reverseIPv6_inj. }
  split; [exact Hbytes|].
  intros name. rewrite !(proj2 (buildARecord_shape name _)).
  unfold forwardRecord. unfold addressBytes in Hbytes.
  rewrite Hname.
  destruct (length (net.To4 ip1) =? net.IPv4len)%nat eqn:E1;
    destruct (length (net.To4 ip2) =? net.IPv4len)%nat eqn:E2;
    try (by rewrite Hbytes).
  - unfold reverseNameOf in Hname. rewrite E1, E2 in Hname.
    by apply reverse_families_differ in Hname.
  - unfold reverseNameOf in Hname. rewrite E1, E2 in Hname.
    symmetry in Hname. by apply reverse_families_differ in Hname.
Qed.

Lemma reverse_name_determines_address_witness :
  addressBytes (net.IPv4 192 0 2 10) = addressBytes [192; 0; 2; 10]%N.
Proof.
  apply (reverse_name_determines_address (net.IPv4 192 0 2 10)
           [192; 0; 2; 10]%N).
  - split; [by right | repeat constructor; reflexivity].
  - split; [by left | repeat constructor; reflexivity].
  - reflexivity.
Defined.

(** ** The publish annotation *)

(** X20. Only the presence of the publish annotation counts: whatever
    its value is, the Service is treated as with publish-all switched
    on, so the value [false] publishes the Service like any other. *)
Theorem publish_value_is_ignored `{!GoLib}
        (rng : MapRange) (s : service.ServiceSource)
        (service : corev1.Service) (value : string) :
  service.buildRecordsAt rng s
    (ServiceObj (withAnnotations service
                   (<[service.annPublish := value]>
                      (corev1.Annotations service))))
  = service.buildRecordsAt rng {| service.publishAll := true |}
      (ServiceObj service).
Proof.
  unfold service.buildRecordsAt.
  change (service.serviceIP (withAnnotations service _))
    with (service.serviceIP service).
  change (corev1.Spec_Ports (withAnnotations service _))
    with (corev1.Spec_Ports service).
  change (corev1.Name (withAnnotations service _))
    with (corev1.Name service).
  change (corev1.Namespace (withAnnotations service _))
    with (corev1.Namespace service).
  assert (Hsvctxt : service.svctxtOf rng
                      (withAnnotations service
                         (<[service.annPublish := value]>
                            (corev1.Annotations service)))
                    = service.svctxtOf rng service).
  { unfold service.svctxtOf. cbn [withAnnotations corev1.Annotations].
    by rewrite lookup_insert_ne. }
  rewrite Hsvctxt. cbn [withAnnotations corev1.Annotations].
  rewrite lookup_insert_eq.
  rewrite !lookup_insert_ne by done.
  rewrite (bool_decide_eq_true_2 (is_Some (Some value))) by (by eexists).
  cbn [negb andb service.publishAll]. by rewrite !andb_false_r.
Qed.
